(** * KGR leaderboard API: a shallow embedding of [src/server.js]

    The source file holds two variants of the same server.  Variant 1
    (lines 1-204, "Autoprune") trims the [scores] table to its best 100
    rows after every insert and orders by [score DESC, created_at ASC,
    id ASC]; variant 2 (lines 205-393) never deletes and orders by
    [score DESC, created_at ASC].  The helpers [clampScore], [getJson],
    [isRecent] and [txAlreadyUsed] are the same text in both.

    Modelling choices.
    - A JavaScript number is [NaN], an infinity or a finite rational.
      Every finite double is a rational, and the operations the handlers
      apply to numbers (floor, comparison, min, max, subtraction of
      millisecond time stamps) are exact on doubles, so no rounding
      appears.  Negative zero is identified with zero.
    - Strings are sequences of 8-bit characters (ASCII texts).
    - A JSON value is a primitive or an object; of an object (array or
      plain object) only the two texts the handlers derive from it are
      kept: its [String(v)] image and the text the database driver sends
      for it as a query parameter.
    - A field of the request body may also be an object that cannot be
      converted to a primitive ([{"toString": 1}]): [String(v)] and a
      template literal throw a TypeError on it.  Such a value is
      [Unprintable]; see [Json].
    - Built-ins whose definition is outside the repository (number
      parsing and printing, date parsing in JavaScript and in Postgres)
      are the fields of [JsRuntime]; every theorem holds for every
      runtime.
    - An [async] handler is a term of the free monad [Proc]: each
      [await], and the reading of the clock, is a node [Await call k].
      [run] executes a handler alone; [race] interleaves two handlers at
      these nodes.
    - The rate limiter in front of [/submitScore] is a middleware of its
      own; the statements are about requests that reach the handler. *)

From Stdlib Require Import ZArith QArith Qround Bool List String Ascii Lia Lqa.
From Stdlib Require Import Permutation Sorted DecimalString.
Import ListNotations.

Local Open Scope string_scope.
Local Open Scope Z_scope.

(** ** JavaScript values *)

Inductive JsNum : Type :=
| NaN
| PosInf
| NegInf
| Fin (q : Q).

Inductive JsValue : Type :=
| JUndefined
| JNull
| JBool (b : bool)
| JNum (x : JsNum)
| JStr (s : string)
| JObj (str : string) (sql : string).

(** A thrown [Error]; the handlers read only its [message]. *)
Inductive JsError : Type :=
| Error (message : string).

Definition message (e : JsError) : string :=
  match e with
  | Error m => m
  end.

(** Built-ins of the JavaScript runtime and of Postgres that the
    handlers call and whose code is not part of the repository. *)
Class JsRuntime : Type := {
  (** [Number(s)] for a string [s] *)
  StringToNumber : string -> JsNum;
  (** [String(x)] for a number [x] *)
  NumberToString : JsNum -> string;
  (** [new Date(v).getTime()]; [None] stands for [NaN] (Invalid Date) *)
  Date_getTime : JsValue -> option Z;
  (** Postgres reading a query parameter as [TIMESTAMPTZ]; [None] is an
      input syntax error *)
  timestamptz_in : JsValue -> option Z;
  (** Postgres entering a text into a btree index: an index row may
      take about a third of a page, after compression, and a text that
      needs more is refused.  [None] when the text fits, else the error
      raised. *)
  index_row_error : string -> option JsError
}.

Definition of_Z (z : Z) : JsNum := Fin (inject_Z z).

(** [Boolean(v)]: the falsy values are [undefined], [null], [false],
    [0], [NaN] and the empty string. *)
Definition truthy (v : JsValue) : bool :=
  match v with
  | JUndefined | JNull => false
  | JBool b => b
  | JNum NaN => false
  | JNum (Fin q) => negb (Qeq_bool q 0)
  | JNum _ => true
  | JStr s => negb (String.eqb s "")
  | JObj _ _ => true
  end.

Definition typeof (v : JsValue) : string :=
  match v with
  | JUndefined => "undefined"
  | JNull => "object"
  | JBool _ => "boolean"
  | JNum _ => "number"
  | JStr _ => "string"
  | JObj _ _ => "object"
  end.

(** [v === "literal"] *)
Definition strict_eq_str (v : JsValue) (lit : string) : bool :=
  match v with
  | JStr s => String.eqb s lit
  | _ => false
  end.

(** [v === true] *)
Definition strict_eq_true (v : JsValue) : bool :=
  match v with
  | JBool true => true
  | _ => false
  end.

Definition Number_isFinite (x : JsNum) : bool :=
  match x with
  | Fin _ => true
  | _ => false
  end.

Definition Math_floor (x : JsNum) : JsNum :=
  match x with
  | Fin q => of_Z (Qfloor q)
  | other => other
  end.

(** [a < b] on numbers; every comparison with [NaN] is false. *)
Definition js_lt (a b : JsNum) : bool :=
  match a, b with
  | NaN, _ | _, NaN => false
  | _, NegInf => false
  | NegInf, _ => true
  | PosInf, _ => false
  | _, PosInf => true
  | Fin p, Fin q => negb (Qle_bool q p)
  end.

Definition Math_min (a b : JsNum) : JsNum :=
  match a, b with
  | NaN, _ | _, NaN => NaN
  | _, _ => if js_lt b a then b else a
  end.

Definition Math_max (a b : JsNum) : JsNum :=
  match a, b with
  | NaN, _ | _, NaN => NaN
  | _, _ => if js_lt a b then b else a
  end.

Definition upper_char (c : ascii) : ascii :=
  let n := nat_of_ascii c in
  if ((97 <=? n) && (n <=? 122))%nat then ascii_of_nat (n - 32) else c.

Fixpoint toUpperCase (s : string) : string :=
  match s with
  | EmptyString => EmptyString
  | String c rest => String (upper_char c) (toUpperCase rest)
  end.

Section Coercions.
Context {rt : JsRuntime}.

(** [Number(v)] *)
Definition Number (v : JsValue) : JsNum :=
  match v with
  | JUndefined => NaN
  | JNull => of_Z 0
  | JBool b => if b then of_Z 1 else of_Z 0
  | JNum x => x
  | JStr s => StringToNumber s
  | JObj s _ => StringToNumber s
  end.

(** [String(v)], also the value of [v] inside a template literal *)
Definition String_ (v : JsValue) : string :=
  match v with
  | JUndefined => "undefined"
  | JNull => "null"
  | JBool b => if b then "true" else "false"
  | JNum x => NumberToString x
  | JStr s => s
  | JObj s _ => s
  end.

(** The text node-postgres sends for a query parameter; [None] is SQL
    [NULL]. *)
Definition prepareValue (v : JsValue) : option string :=
  match v with
  | JUndefined | JNull => None
  | JObj _ q => Some q
  | other => Some (String_ other)
  end.

(** [function clampScore(raw)] *)
Definition clampScore (raw : JsValue) : JsNum :=
  let n := Math_floor (Number raw) in
  if negb (Number_isFinite n) || js_lt n (of_Z 0) then of_Z 0
  else Math_min n (of_Z 1000000000).

End Coercions.

(** ** Results *)

Inductive Result (A : Type) : Type :=
| Ok (a : A)
| Err (e : JsError).

Arguments Ok {A} a.
Arguments Err {A} e.

(** ** Values of the request body *)

(** What [express.json()] may put into a field of [req.body].  An
    object with an own [toString] property that is not a function (as
    in [{"toString": 1}]) hides the method of [Object.prototype];
    converting such an object to a primitive throws a TypeError, and so
    does converting an array that holds one.  [Unprintable] stands for
    the objects whose conversion throws; [sql] is the text the database
    driver sends for one (it is built with [JSON.stringify], which does
    not call [toString]). *)
Inductive Json : Type :=
| Printable (v : JsValue)
| Unprintable (sql : string).

(** The value as the operators that never convert it see it
    ([!v], [typeof v], [v === ...], the driver's parameter text): an
    unprintable object is an object like any other there.  The [String]
    image [plain] gives it is never read: [ToString] throws first. *)
Definition plain (j : Json) : JsValue :=
  match j with
  | Printable v => v
  | Unprintable sql => JObj "" sql
  end.

Coercion Printable : JsValue >-> Json.
#[warning="-ambiguous-paths"]
Coercion plain : Json >-> JsValue.

Definition printable (j : Json) : bool :=
  match j with
  | Printable _ => true
  | Unprintable _ => false
  end.

(** The TypeError of a failed conversion to a primitive. *)
Definition type_error : JsError :=
  Error "Cannot convert object to primitive value".

(** [String(v)] for a body value, also the conversion a template literal
    applies to it. *)
Definition ToString {rt : JsRuntime} (j : Json) : Result string :=
  if printable j then Ok (String_ j) else Err type_error.

(** ** The [scores] table *)

(** One row of [scores], columns as [ensureSchema] declares them. *)
Record Row : Type := mkRow {
  id : Z;
  address : string;
  score : Z;
  tx_hash : string;
  paid_at : Z;
  created_at : Z;
  ip : option string;
  ua : option string
}.

(** The database.  [rows] is the table (its physical order carries no
    meaning), [next_id] the sequence behind the serial [id] column and
    [score_check] tells whether the table carries
    [CHECK (score >= 0 AND score <= 1000000000)] (variant 1 does,
    variant 2 does not).  [inserted] is a history variable: every row
    ever written by an INSERT, newest first; no query reads it. *)
Record Store : Type := mkStore {
  rows : list Row;
  next_id : Z;
  score_check : bool;
  inserted : list Row
}.

(** The state [ensureSchema] leaves on a fresh database. *)
Definition ensureSchema_v1 : Store := mkStore [] 1 true [].
Definition ensureSchema_v2 : Store := mkStore [] 1 false [].

(** The projection [SELECT address, score, tx_hash AS txHash,
    paid_at AS paidAtISO], with the column values themselves (not their
    rendering in the JSON response). *)
Record Entry : Type := mkEntry {
  entry_address : string;
  entry_score : Z;
  txHash : string;
  paidAtISO : Z
}.

Definition entry_of (r : Row) : Entry :=
  mkEntry (address r) (score r) (tx_hash r) (paid_at r).

(** [ORDER BY score DESC, created_at ASC, id ASC]: [rank_leb a b] holds
    when [a] is listed no later than [b]. *)
Definition rank_leb (a b : Row) : bool :=
  (score b <? score a) ||
  ((score a =? score b) &&
   ((created_at a <? created_at b) ||
    ((created_at a =? created_at b) && (id a <=? id b)))).

(** [ORDER BY score DESC, created_at ASC] of variant 2. *)
Definition rank2_leb (a b : Row) : bool :=
  (score b <? score a) ||
  ((score a =? score b) && (created_at a <=? created_at b)).

Section OrderBy.
Variable leb : Row -> Row -> bool.

Fixpoint place (x : Row) (l : list Row) : list Row :=
  match l with
  | [] => [x]
  | y :: l' => if leb x y then x :: y :: l' else y :: place x l'
  end.

Definition order_by (l : list Row) : list Row := fold_right place [] l.

End OrderBy.

(** A JavaScript number sent as the parameter of a [BIGINT] position:
    its decimal text is accepted when the number is an integer in the
    64-bit range. *)
Definition sql_bigint (x : JsNum) : option Z :=
  match x with
  | Fin q =>
      let z := Qfloor q in
      if Qeq_bool q (inject_Z z)
         && (- 9223372036854775808 <=? z) && (z <=? 9223372036854775807)
      then Some z else None
  | _ => None
  end.

Definition dquote : string := String (ascii_of_nat 34) EmptyString.

Definition unique_violation : JsError :=
  Error ("duplicate key value violates unique constraint "
         ++ dquote ++ "scores_tx_hash_key" ++ dquote).

Definition check_violation : JsError :=
  Error ("new row for relation " ++ dquote ++ "scores" ++ dquote
         ++ " violates check constraint "
         ++ dquote ++ "scores_score_check" ++ dquote).

Definition not_null_violation : JsError :=
  Error ("null value in column " ++ dquote ++ "tx_hash" ++ dquote
         ++ " violates not-null constraint").

(** A parameter that is no [BIGINT].  Postgres's message goes on with
    the parameter's text in quotes; the handlers never see it: the
    score they send is an integer in range, the [LIMIT] of the submit
    handler is the constant 10, and the leaderboard handler has no
    [catch]. *)
Definition bigint_syntax : JsError :=
  Error "invalid input syntax for type bigint".

(** A parameter that is no [TIMESTAMPTZ]: [text] is what the driver
    sent, [None] for SQL [NULL], which the column does not take. *)
Definition timestamptz_syntax (text : option string) : JsError :=
  match text with
  | Some t =>
      Error ("invalid input syntax for type timestamp with time zone: "
             ++ dquote ++ t ++ dquote)
  | None =>
      Error ("null value in column " ++ dquote ++ "paid_at" ++ dquote
             ++ " violates not-null constraint")
  end.

(** [SELECT 1 FROM scores WHERE tx_hash = $1 LIMIT 1] *)
Definition select_tx_hash (db : Store) (p : option string) : list Z :=
  match p with
  | None => []
  | Some h =>
      firstn 1 (map (fun _ => 1) (filter (fun r => String.eqb (tx_hash r) h) (rows db)))
  end.

(** [SELECT ... ORDER BY score DESC, created_at ASC, id ASC LIMIT $1] *)
Definition select_top (db : Store) (n : JsNum) : Result (list Entry) :=
  match sql_bigint n with
  | None => Err bigint_syntax
  | Some k =>
      if k <? 0 then Err (Error "LIMIT must not be negative")
      else Ok (map entry_of (firstn (Z.to_nat k) (order_by rank_leb (rows db))))
  end.

(** [SELECT ... ORDER BY score DESC, created_at ASC LIMIT $1] of
    variant 2.  SQL leaves the order of rows that agree on both keys
    open; the model lists them in table order. *)
Definition select_top2 (db : Store) (n : JsNum) : Result (list Entry) :=
  match sql_bigint n with
  | None => Err bigint_syntax
  | Some k =>
      if k <? 0 then Err (Error "LIMIT must not be negative")
      else Ok (map entry_of (firstn (Z.to_nat k) (order_by rank2_leb (rows db))))
  end.

(** [DELETE FROM scores WHERE id NOT IN (SELECT id FROM scores ORDER BY
    score DESC, created_at ASC, id ASC LIMIT 100)] *)
Definition delete_not_top100 (db : Store) : Store :=
  let keep := map id (firstn 100 (order_by rank_leb (rows db))) in
  mkStore (filter (fun r => existsb (Z.eqb (id r)) keep) (rows db))
          (next_id db) (score_check db) (inserted db).

Section Insert.
Context {rt : JsRuntime}.

(** [INSERT INTO scores (address, score, tx_hash, paid_at, ip, ua)
    VALUES ($1,$2,$3,$4,$5,$6)] at database time [now].  The parameters
    are read first; then the sequence is advanced (also when the
    statement fails later), the row constraints are checked and last the
    unique index on [tx_hash], which refuses a duplicate and a text too
    long for an index row. *)
Definition insert_score (now : Z) (db : Store)
    (p_address : string) (p_score : JsNum) (p_tx_hash : option string)
    (p_paid_at : JsValue) (p_ip p_ua : option string)
  : Store * Result unit :=
  match sql_bigint p_score, timestamptz_in p_paid_at with
  | None, _ => (db, Err bigint_syntax)
  | _, None => (db, Err (timestamptz_syntax (prepareValue p_paid_at)))
  | Some s, Some paid =>
      let db1 := mkStore (rows db) (next_id db + 1) (score_check db)
                         (inserted db) in
      match p_tx_hash with
      | None => (db1, Err not_null_violation)
      | Some h =>
          if score_check db && negb ((0 <=? s) && (s <=? 1000000000))
          then (db1, Err check_violation)
          else if existsb (fun r => String.eqb (tx_hash r) h) (rows db)
          then (db1, Err unique_violation)
          else
            match index_row_error h with
            | Some e => (db1, Err e)
            | None =>
                let r := mkRow (next_id db) p_address s h paid now p_ip p_ua in
                (mkStore (r :: rows db) (next_id db + 1) (score_check db)
                         (r :: inserted db), Ok tt)
            end
      end
  end.

End Insert.

(** ** The ledger (Horizon) as the handlers see it *)

(** An operation record; a field the JSON lacks is [JUndefined]. *)
Record OperationRecord : Type := mkOp {
  op_type : JsValue;
  op_to : JsValue;
  op_from : JsValue;
  asset_type : JsValue;
  asset_code : JsValue;
  asset_issuer : JsValue;
  amount : JsValue
}.

(** A JSON document served by Horizon, through the properties the
    handlers read: [successful], [memo_type] and [created_at] of a
    transaction, [_embedded.records] of an operations page ([[]] when
    the path is missing). *)
Record HorizonJson : Type := mkJson {
  successful : JsValue;
  memo_type : JsValue;
  tx_created_at : JsValue;
  embedded_records : list OperationRecord
}.

(** What [fetch] resolves to: [r.ok], [r.status] and the outcome of
    [r.json()]. *)
Record HttpResponse : Type := mkHttp {
  ok : bool;
  http_status : Z;
  json : Result HorizonJson
}.

(** Everything outside the process at the time of one request: the
    ledger ([Err] is a rejected [fetch]), [Date.now()] and the
    database's [NOW()]. *)
Record World : Type := mkWorld {
  fetch : string -> Result HttpResponse;
  Date_now : Z;
  NOW : Z
}.

(** ** Asynchronous code *)

(** The interactions of a handler with the world. *)
Inductive Call : Type -> Type :=
| CFetch (url : string) : Call HttpResponse
| CDateNow : Call Z
| QSelectTxHash (p : option string) : Call (list Z)
| QInsert (p_address : string) (p_score : JsNum) (p_tx_hash : option string)
          (p_paid_at : JsValue) (p_ip p_ua : option string) : Call unit
| QDeleteNotTop100 : Call unit
| QSelectTop (n : JsNum) : Call (list Entry)
| QSelectTop2 (n : JsNum) : Call (list Entry).

(** A computation that returns, throws, or performs a call and goes on
    with its outcome (a value, or the error a rejected promise carries). *)
Inductive Proc (A : Type) : Type :=
| Ret (a : A)
| Throw (e : JsError)
| Await (X : Type) (c : Call X) (k : Result X -> Proc A).

Arguments Ret {A} a.
Arguments Throw {A} e.
Arguments Await {A X} c k.

Fixpoint bind {A B : Type} (p : Proc A) (f : A -> Proc B) : Proc B :=
  match p with
  | Ret a => f a
  | Throw e => Throw e
  | Await c k => Await c (fun r => bind (k r) f)
  end.

(** [try { p } catch (e) { h e }] *)
Fixpoint tryCatch {A : Type} (p : Proc A) (h : JsError -> Proc A) : Proc A :=
  match p with
  | Ret a => Ret a
  | Throw e => h e
  | Await c k => Await c (fun r => tryCatch (k r) h)
  end.

Definition of_result {A : Type} (r : Result A) : Proc A :=
  match r with
  | Ok a => Ret a
  | Err e => Throw e
  end.

(** [await c] *)
Definition await {X : Type} (c : Call X) : Proc X := Await c of_result.

Notation "x <- p ;; q" := (bind p (fun x => q))
  (at level 61, p at next level, right associativity).

Section Semantics.
Context {rt : JsRuntime}.

(** One call against the world and the database. *)
Definition perform {X : Type} (w : World) (db : Store) (c : Call X)
  : Store * Result X :=
  match c in Call T return Store * Result T with
  | CFetch url => (db, fetch w url)
  | CDateNow => (db, Ok (Date_now w))
  | QSelectTxHash p => (db, Ok (select_tx_hash db p))
  | QInsert a s h paid i u => insert_score (NOW w) db a s h paid i u
  | QDeleteNotTop100 => (delete_not_top100 db, Ok tt)
  | QSelectTop n => (db, select_top db n)
  | QSelectTop2 n => (db, select_top2 db n)
  end.

(** A handler run alone, to its end. *)
Fixpoint run {A : Type} (w : World) (db : Store) (p : Proc A)
  : Store * Result A :=
  match p with
  | Ret a => (db, Ok a)
  | Throw e => (db, Err e)
  | Await c k => let '(db', r) := perform w db c in run w db' (k r)
  end.

(** One step: the pending call of [p] is performed. *)
Definition step {A : Type} (w : World) (db : Store) (p : Proc A)
  : Store * Proc A :=
  match p with
  | Await c k => let '(db', r) := perform w db c in (db', k r)
  | done => (db, done)
  end.

(** Two handlers in flight on one database.  The schedule says whose
    pending call completes next ([true]: the first handler). *)
Fixpoint race {A : Type} (w : World) (sched : list bool) (db : Store)
    (p q : Proc A) : Store * Proc A * Proc A :=
  match sched with
  | [] => (db, p, q)
  | true :: rest => let '(db', p') := step w db p in race w rest db' p' q
  | false :: rest => let '(db', q') := step w db q in race w rest db' p q'
  end.

End Semantics.

(** ** Requests and responses *)

(** A [POST /submitScore] request: the three fields read from
    [req.body || {}] (a missing field is [JUndefined]), [req.ip] and
    [req.get("user-agent")]. *)
Record Request : Type := mkRequest {
  body_txHash : Json;
  body_address : Json;
  body_score : Json;
  req_ip : option string;
  user_agent : option string
}.

Inductive Body : Type :=
| Text (s : string)
| OkTop10 (top10 : list Entry)
| Top (top : list Entry).

Record Response : Type := mkResponse {
  status : Z;
  body : Body
}.

(** [res.status(code).send(text)] *)
Definition send (code : Z) (text : string) : Response :=
  mkResponse code (Text text).

(** [x || null] for a string or [undefined] *)
Definition or_null (x : option string) : option string :=
  match x with
  | Some s => if String.eqb s "" then None else Some s
  | None => None
  end.

(** ** Constants *)

Definition HORIZON : string := "https://horizon.stellar.org".
Definition KALE_CODE : string := "KALE".
Definition KALE_ISSUER : string :=
  "GBDVX4VELCDSQ54KQJYTNHXAHFLBCA77ZY2USQBM4CSHTTV7DME7KALE".
Definition TREASURY : string :=
  "GDIH6XE3UZ5CW37X3OKVS3SYKHG32PRPXPT3722NJ2AY3MOLCQNMUUTT".

(** ** Helpers *)

Definition base32_char (c : ascii) : bool :=
  let n := nat_of_ascii c in
  ((65 <=? n) && (n <=? 90) || (50 <=? n) && (n <=? 55))%nat.

(** [/^G[A-Z2-7]{55}$/.test(s)] *)
Definition address_re (s : string) : bool :=
  match s with
  | String c rest =>
      Ascii.eqb c "G" && (String.length rest =? 55)%nat
      && forallb base32_char (list_ascii_of_string rest)
  | EmptyString => false
  end.

(** The predicate of [ops.filter(o => ...)]. *)
Definition validPay (address : string) (o : OperationRecord) : bool :=
  strict_eq_str (op_type o) "payment" &&
  strict_eq_str (op_to o) TREASURY &&
  (strict_eq_str (asset_type o) "credit_alphanum4"
   || strict_eq_str (asset_type o) "credit_alphanum12") &&
  strict_eq_str (asset_code o) KALE_CODE &&
  strict_eq_str (asset_issuer o) KALE_ISSUER &&
  strict_eq_str (amount o) "1.0000000" &&
  strict_eq_str (op_from o) address.

Section Handlers.
Context {rt : JsRuntime}.

(** [async function getJson(url)] *)
Definition getJson (url : string) : Proc HorizonJson :=
  r <- await (CFetch url) ;;
  if negb (ok r)
  then Throw (Error ("Horizon error " ++ NumberToString (of_Z (http_status r))))
  else of_result (json r).

(** What [getJson(url)] settles to in a given world. *)
Definition getJson_outcome (w : World) (url : string) : Result HorizonJson :=
  match fetch w url with
  | Err e => Err e
  | Ok r =>
      if negb (ok r)
      then Err (Error ("Horizon error " ++ NumberToString (of_Z (http_status r))))
      else json r
  end.

(** [(now - new Date(iso).getTime()) <= minutes * 60 * 1000], where
    [now] is the value [Date.now()] returned.  A comparison with [NaN]
    (an unparseable date) is false. *)
Definition within_minutes (now : Z) (iso : JsValue) (minutes : Z) : bool :=
  match Date_getTime iso with
  | Some t => now - t <=? minutes * 60 * 1000
  | None => false
  end.

(** [function isRecent(iso, minutes = 30)] *)
Definition isRecent (iso : JsValue) (minutes : Z) : Proc bool :=
  tryCatch
    (now <- await CDateNow ;;
     Ret (within_minutes now iso minutes))
    (fun _ => Ret false).

(** [async function txAlreadyUsed(txHash)] *)
Definition txAlreadyUsed (txHash : Json) : Proc bool :=
  rows <- await (QSelectTxHash (prepareValue txHash)) ;;
  Ret (0 <? List.length rows)%nat.

(** [`${HORIZON}/transactions/${txHash}`], when the conversion of
    [txHash] succeeds *)
Definition transaction_url (txHash : JsValue) : string :=
  HORIZON ++ "/transactions/" ++ String_ txHash.

(** [`${HORIZON}/transactions/${txHash}/operations?limit=200&order=asc`] *)
Definition operations_url (txHash : JsValue) : string :=
  HORIZON ++ "/transactions/" ++ String_ txHash
  ++ "/operations?limit=200&order=asc".

(** A template literal with [txHash] in it: it throws when the
    conversion of [txHash] does, and is [url txHash] otherwise. *)
Definition template (url : JsValue -> string) (txHash : Json) : Proc string :=
  text <- of_result (ToString txHash) ;;
  Ret (url txHash).

(** The [catch (e)] block of the submit handler:
    [res.status(500).send(e.message || "server error")]. *)
Definition server_error (e : JsError) : Proc Response :=
  Ret (send 500 (if String.eqb (message e) "" then "server error"
                 else message e)).

(** The body of [app.post("/submitScore", ...)] is the same text in both
    variants up to and including the INSERT; [respond] is what follows
    the INSERT inside the [try] block.  The body is written in two
    parts.  [verifyAndStore] is the second part, from
    [const normScore = clampScore(score)] on; [address] is the
    upper-cased address. *)
Definition verifyAndStore (respond : Proc Response) (req : Request)
    (address : string) : Proc Response :=
  let txHash := body_txHash req in
  let score := body_score req in
  let normScore := clampScore score in
  url <- template transaction_url txHash ;;
  tx <- getJson url ;;
  if negb (strict_eq_true (successful tx))
  then Ret (send 400 "tx not successful")
  else
  if truthy (memo_type tx) && negb (strict_eq_str (memo_type tx) "none")
  then Ret (send 400 "memos not allowed")
  else
  recent <- isRecent (tx_created_at tx) 30 ;;
  if negb recent
  then Ret (send 400 "tx too old")
  else
  url <- template operations_url txHash ;;
  opsPage <- getJson url ;;
  let ops := embedded_records opsPage in
  let validPays := filter (validPay address) ops in
  if negb (List.length validPays =? 1)%nat
  then Ret (send 400 "no valid KALE payment op to treasury from address")
  else
  _ <- await (QInsert address normScore (prepareValue txHash)
                      (tx_created_at tx) (or_null (req_ip req))
                      (or_null (user_agent req))) ;;
  respond.

(** The first part (shape, address and replay checks) and the [try]
    around the whole body. *)
Definition submitScore_handler (respond : Proc Response) (req : Request)
  : Proc Response :=
  tryCatch
    (let txHash := body_txHash req in
     let address := body_address req in
     let score := body_score req in
     if negb (truthy txHash) || negb (truthy address)
        || negb (String.eqb (typeof score) "number")
     then Ret (send 400 "txHash, address, score required")
     else
     text <- of_result (ToString address) ;;
     let address := toUpperCase text in
     if negb (address_re address)
     then Ret (send 400 "bad address")
     else
     used <- txAlreadyUsed txHash ;;
     if (used : bool)
     then Ret (send 409 "tx already used")
     else verifyAndStore respond req address)
    server_error.

(** [Math.max(1, Math.min(Number(req.query.limit) || 50, 100))] *)
Definition leaderboard_limit (limit : JsValue) : JsNum :=
  let x := Number limit in
  Math_max (of_Z 1)
    (Math_min (if truthy (JNum x) then x else of_Z 50) (of_Z 100)).

End Handlers.

(** ** Variant 1 (autoprune) *)

Module Variant1.
Section Routes.
Context {rt : JsRuntime}.

(** [async function topN(n = 50)] *)
Definition topN (n : JsNum) : Proc (list Entry) := await (QSelectTop n).

(** What follows the INSERT: the trimming DELETE and
    [res.json({ ok: true, top10: await topN(10) })]. *)
Definition trimAndRespond : Proc Response :=
  _ <- await QDeleteNotTop100 ;;
  top10 <- topN (of_Z 10) ;;
  Ret (mkResponse 200 (OkTop10 top10)).

(** [app.post("/submitScore", submitLimiter, async (req, res) => ...)] *)
Definition submitScore : Request -> Proc Response :=
  submitScore_handler trimAndRespond.

(** [app.get("/leaderboard", async (req, res) => ...)]; the handler has
    no [try]: a rejected query leaves the request without a response. *)
Definition leaderboard (limit : JsValue) : Proc Response :=
  let lim := leaderboard_limit limit in
  top <- topN lim ;;
  Ret (mkResponse 200 (Top top)).

End Routes.
End Variant1.

(** ** Variant 2 (no pruning) *)

Module Variant2.
Section Routes.
Context {rt : JsRuntime}.

(** What follows the INSERT: the [LIMIT 10] query and
    [res.json({ ok: true, top10: rows })]. *)
Definition respond : Proc Response :=
  rows <- await (QSelectTop2 (of_Z 10)) ;;
  Ret (mkResponse 200 (OkTop10 rows)).

(** [app.post("/submitScore", submitLimiter, async (req, res) => ...)] *)
Definition submitScore : Request -> Proc Response :=
  submitScore_handler respond.

(** [app.get("/leaderboard", async (req, res) => ...)] *)

Definition leaderboard (limit : JsValue) : Proc Response :=
  let lim := leaderboard_limit limit in
  rows <- await (QSelectTop2 lim) ;;
  Ret (mkResponse 200 (Top rows)).

End Routes.
End Variant2.

(** Requests served one after the other, each in its own world. *)
Fixpoint serve {rt : JsRuntime} (handler : Request -> Proc Response)
    (db : Store) (reqs : list (World * Request)) : Store * list (Result Response) :=
  match reqs with
  | [] => (db, [])
  | (w, req) :: rest =>
      let '(db1, r) := run w db (handler req) in
      let '(db2, rs) := serve handler db1 rest in
      (db2, r :: rs)
  end.

(** ** A concrete runtime and concrete scenarios

    [demo_runtime] implements the built-ins on the part of their domain
    that the scenarios below use: decimal digit strings of at most 15
    digits for [Number], integers for [String], UTC time stamps
    written [YYYY-MM-DDTHH:MM:SSZ] with a valid calendar date for both
    date parsers (in milliseconds since the epoch), and texts of at most
    2000 characters for the index.  On that domain it agrees with
    JavaScript and Postgres. *)

Definition demo_StringToNumber (s : string) : JsNum :=
  match NilEmpty.uint_of_string s with
  | Some u => of_Z (Z.of_uint u)
  | None => NaN
  end.

Definition demo_NumberToString (x : JsNum) : string :=
  match x with
  | NaN => "NaN"
  | PosInf => "Infinity"
  | NegInf => "-Infinity"
  | Fin q => NilZero.string_of_int (Z.to_int (Qfloor q))
  end.

Definition digits_at (s : string) (pos len : nat) : option Z :=
  let t := substring pos len s in
  if (String.length t =? len)%nat
  then option_map Z.of_uint (NilEmpty.uint_of_string t)
  else None.

Definition leap_year (y : Z) : bool :=
  ((y mod 4 =? 0) && negb (y mod 100 =? 0)) || (y mod 400 =? 0).

Definition days_in_month (y m : Z) : Z :=
  if m =? 2 then (if leap_year y then 29 else 28)
  else if (m =? 4) || (m =? 6) || (m =? 9) || (m =? 11) then 30
  else 31.

(** Days from 1970-01-01 to the given date of the Gregorian calendar. *)
Definition days_from_civil (y m d : Z) : Z :=
  let y' := if m <=? 2 then y - 1 else y in
  let era := y' / 400 in
  let yoe := y' - era * 400 in
  let mp := (m + 9) mod 12 in
  let doy := (153 * mp + 2) / 5 + d - 1 in
  let doe := yoe * 365 + yoe / 4 - yoe / 100 + doy in
  era * 146097 + doe - 719468.

Definition iso_utc_millis (s : string) : option Z :=
  if (String.length s =? 20)%nat
     && String.eqb (substring 4 1 s) "-" && String.eqb (substring 7 1 s) "-"
     && String.eqb (substring 10 1 s) "T" && String.eqb (substring 13 1 s) ":"
     && String.eqb (substring 16 1 s) ":" && String.eqb (substring 19 1 s) "Z"
  then
    match digits_at s 0 4, digits_at s 5 2, digits_at s 8 2,
          digits_at s 11 2, digits_at s 14 2, digits_at s 17 2 with
    | Some y, Some m, Some d, Some hh, Some mm, Some ss =>
        if (1 <=? m) && (m <=? 12) && (1 <=? d) && (d <=? days_in_month y m)
           && (hh <=? 23) && (mm <=? 59) && (ss <=? 59)
        then Some ((((days_from_civil y m d * 24 + hh) * 60 + mm) * 60 + ss)
                   * 1000)
        else None
    | _, _, _, _, _, _ => None
    end
  else None.

Definition demo_Date_getTime (v : JsValue) : option Z :=
  match v with
  | JStr s => iso_utc_millis s
  | JObj s _ => iso_utc_millis s
  | JNull => Some 0
  | JBool b => Some (if b then 1 else 0)
  | JNum (Fin q) =>
      let t := if Qle_bool 0 q then Qfloor q else Qceiling q in
      if Z.abs t <=? 8640000000000000 then Some t else None
  | _ => None
  end.

Definition demo_timestamptz_in (v : JsValue) : option Z :=
  match v with
  | JStr s => iso_utc_millis s
  | _ => None
  end.

(** A text of at most 2000 characters fits into an index row whatever
    its compression. *)
Definition demo_index_row_error (h : string) : option JsError :=
  if (String.length h <=? 2000)%nat then None
  else Some (Error "index row size exceeds btree maximum").

Definition demo_runtime : JsRuntime :=
  Build_JsRuntime demo_StringToNumber demo_NumberToString
                  demo_Date_getTime demo_timestamptz_in
                  demo_index_row_error.

(** A payer account and the one payment that qualifies for it. *)
Definition payer : string :=
  "GAAAAAAAAAAAAAAAAAAAAAAAAAAAAAAAAAAAAAAAAAAAAAAAAAAAAAAA".

Definition payer_lower : string :=
  "gaaaaaaaaaaaaaaaaaaaaaaaaaaaaaaaaaaaaaaaaaaaaaaaaaaaaaaa".

Definition kale_payment (from : string) : OperationRecord :=
  mkOp (JStr "payment") (JStr TREASURY) (JStr from)
       (JStr "credit_alphanum4") (JStr KALE_CODE) (JStr KALE_ISSUER)
       (JStr "1.0000000").

(** A transaction document with the given memo type, created at
    2024-01-01T00:00:00Z, and an operations page. *)
Definition tx_doc (memo : JsValue) : HorizonJson :=
  mkJson (JBool true) memo (JStr "2024-01-01T00:00:00Z") [].

Definition ops_doc (ops : list OperationRecord) : HorizonJson :=
  mkJson JUndefined JUndefined JUndefined ops.

Definition ends_with (suffix s : string) : bool :=
  let n := String.length suffix in
  String.eqb (substring (String.length s - n) n s) suffix.

(** A ledger that answers every transaction URL with [tx] and every
    operations URL with [ops]. *)
Definition ledger (tx ops : HorizonJson) (url : string) : Result HttpResponse :=
  if ends_with "/operations?limit=200&order=asc" url
  then Ok (mkHttp true 200 (Ok ops))
  else Ok (mkHttp true 200 (Ok tx)).

(** Two minutes after the transaction was created. *)
Definition demo_world (memo : JsValue) : World :=
  mkWorld (ledger (tx_doc memo) (ops_doc [kale_payment payer]))
          1704067320000 1704067320000.

Definition demo_request (hash : string) (addr : JsValue) (sc : JsValue)
  : Request :=
  mkRequest (JStr hash) addr sc (Some "203.0.113.7") (Some "curl/8.0").

(** [n] submissions with the hashes [T1] ... [Tn] and the scores
    [1] ... [n], all of them honest. *)
Fixpoint honest_submissions (n : nat) : list (World * Request) :=
  match n with
  | O => []
  | S k =>
      (honest_submissions k ++
       [(demo_world (JStr "none"),
         demo_request ("T" ++ NilZero.string_of_int (Z.to_int (Z.of_nat n)))
                      (JStr payer_lower) (JNum (of_Z (Z.of_nat n))))])%list
  end.

(** The status a run answered with, if it answered. *)
Definition answered (out : Store * Result Response) : option Z :=
  match snd out with
  | Ok r => Some (status r)
  | Err _ => None
  end.

(** Two submissions of one [txHash] in flight together.  Both replay
    pre-checks complete before either INSERT: the first handler runs
    its pre-check, then the second does, then the first runs to its end
    (two fetches, the clock, INSERT, DELETE, SELECT), then the second
    goes on up to its INSERT.  A step granted to a handler that has
    finished does nothing. *)
Definition race_schedule : list bool :=
  [true; false; true; true; true; true; true; true;
   false; false; false; false].

(** A variant 1 table holding exactly 100 rows, those of the honest
    submissions [T2] ... [T101] (scores 2 to 101). *)
Definition full_table : Store :=
  fst (serve (rt := demo_runtime) (Variant1.submitScore (rt := demo_runtime))
         ensureSchema_v1
         (tl (honest_submissions 101))).

(** ** Vocabulary of the statements *)

Inductive Variant : Type :=
| Autoprune
| NoPrune.

Definition submitScore_of {rt : JsRuntime} (v : Variant)
  : Request -> Proc Response :=
  match v with
  | Autoprune => Variant1.submitScore
  | NoPrune => Variant2.submitScore
  end.

Definition respond_of {rt : JsRuntime} (v : Variant) : Proc Response :=
  match v with
  | Autoprune => Variant1.trimAndRespond
  | NoPrune => Variant2.respond
  end.

(** The database after the part that follows the INSERT. *)
Definition store_after (v : Variant) (db : Store) : Store :=
  match v with
  | Autoprune => delete_not_top100 db
  | NoPrune => db
  end.

Definition leaderboard_of {rt : JsRuntime} (v : Variant)
  : JsValue -> Proc Response :=
  match v with
  | Autoprune => Variant1.leaderboard
  | NoPrune => Variant2.leaderboard
  end.

Section Stages.
Context {rt : JsRuntime}.

(** The request is well shaped, its address is well formed and the
    replay pre-check finds no row for its [txHash]; neither the address
    nor the [txHash] is an object whose conversion throws. *)
Definition passes_request_checks (db : Store) (req : Request) : Prop :=
  truthy (body_txHash req) = true /\
  truthy (body_address req) = true /\
  typeof (body_score req) = "number" /\
  printable (body_address req) = true /\
  address_re (toUpperCase (String_ (body_address req))) = true /\
  select_tx_hash db (prepareValue (body_txHash req)) = [] /\
  printable (body_txHash req) = true.

(** The handler gets as far as the memo check with transaction [tx]. *)
Definition reaches_memo_check (w : World) (db : Store) (req : Request)
    (tx : HorizonJson) : Prop :=
  passes_request_checks db req /\
  getJson_outcome w (transaction_url (body_txHash req)) = Ok tx /\
  successful tx = JBool true.

(** The handler gets as far as counting the payments of [opsPage]. *)
Definition reaches_payment_check (w : World) (db : Store) (req : Request)
    (tx opsPage : HorizonJson) : Prop :=
  reaches_memo_check w db req tx /\
  truthy (memo_type tx) && negb (strict_eq_str (memo_type tx) "none") = false /\
  within_minutes (Date_now w) (tx_created_at tx) 30 = true /\
  getJson_outcome w (operations_url (body_txHash req)) = Ok opsPage.

End Stages.

(** The ORDER BY clause of the variant's SELECT statements. *)
Definition ranking_of (v : Variant) : Row -> Row -> bool :=
  match v with
  | Autoprune => rank_leb
  | NoPrune => rank2_leb
  end.

(** The table holds the best 100 of all rows ever inserted; no two
    inserted rows share an [id], and the sequence is ahead of all of
    them. *)
Definition autoprune_invariant (db : Store) : Prop :=
  order_by rank_leb (rows db) = firstn 100 (order_by rank_leb (inserted db)) /\
  NoDup (map id (inserted db)) /\
  (forall r, In r (inserted db) -> id r < next_id db).

(** ** Vocabulary for interleaved handlers *)

(** The constraints [ensureSchema] declares on [scores]: [tx_hash] is
    unique, [id] is unique and below the sequence, and where the table
    carries the CHECK every score lies between 0 and 1,000,000,000. *)
Definition schema_holds (db : Store) : Prop :=
  NoDup (map tx_hash (rows db)) /\
  NoDup (map id (rows db)) /\
  (forall r, In r (rows db) -> id r < next_id db) /\
  (score_check db = true ->
   forall r, In r (rows db) -> 0 <= score r <= 1000000000).

(** The number of rows that carry the hash [h]. *)
Definition hash_count (h : string) (db : Store) : nat :=
  List.length (filter (fun r => String.eqb (tx_hash r) h) (rows db)).

Definition is_delete {X : Type} (c : Call X) : bool :=
  match c with
  | QDeleteNotTop100 => true
  | _ => false
  end.

(** The [tx_hash] parameter of an INSERT. *)
Definition insert_hash {X : Type} (c : Call X) : option (option string) :=
  match c with
  | QInsert _ _ h _ _ _ => Some h
  | _ => None
  end.

(** A computation that writes nothing: it performs neither the INSERT
    nor the DELETE. *)
Fixpoint reads_only {A : Type} (p : Proc A) : Prop :=
  match p with
  | Ret _ => True
  | Throw _ => True
  | Await c k =>
      is_delete c = false /\ insert_hash c = None /\
      forall r, reads_only (k r)
  end.

(** A submit computation that has not written yet: it never deletes,
    its only INSERT is one for the hash [h], after a successful INSERT
    it only reads, and it answers 200 only after a successful INSERT. *)
Fixpoint before_insert (h : string) (p : Proc Response) : Prop :=
  match p with
  | Ret r => status r <> 200
  | Throw _ => True
  | Await c k =>
      is_delete c = false /\
      match insert_hash c with
      | None => forall r, before_insert h (k r)
      | Some h' =>
          h' = Some h /\
          (forall e, before_insert h (k (Err e))) /\
          (forall x, reads_only (k (Ok x)))
      end
  end.

(** ** The rate limiter's key and the CORS allow list *)

(** [keyGenerator] of [submitLimiter].  [body] is the [address] property
    of [req.body] ([None] when [req.body] is falsy), [ip] is [req.ip]. *)
Definition keyGenerator (path : string) (body : option JsValue)
    (ip : option string) : string :=
  let ip_key := "ip:" ++ match ip with
                         | Some s => s
                         | None => "undefined"
                         end in
  match body with
  | Some (JStr s) =>
      if String.eqb path "/submitScore" then "addr:" ++ toUpperCase s
      else ip_key
  | _ => ip_key
  end.

(** [s.split(",")] *)
Fixpoint split_comma (s : string) : list string :=
  match s with
  | EmptyString => [EmptyString]
  | String c rest =>
      if Ascii.eqb c ","
      then EmptyString :: split_comma rest
      else match split_comma rest with
           | w :: ws => String c w :: ws
           | [] => [String c EmptyString]
           end
  end.

(** White space of an ASCII text: TAB, LF, VT, FF, CR and the space. *)
Definition is_space (c : ascii) : bool :=
  let n := nat_of_ascii c in
  ((9 <=? n) && (n <=? 13) || (n =? 32))%nat.

Fixpoint trimStart (s : string) : string :=
  match s with
  | EmptyString => EmptyString
  | String c rest => if is_space c then trimStart rest else s
  end.

Fixpoint trimEnd (s : string) : string :=
  match s with
  | EmptyString => EmptyString
  | String c rest =>
      match trimEnd rest with
      | EmptyString => if is_space c then EmptyString
                       else String c EmptyString
      | kept => String c kept
      end
  end.

(** [s.trim()] *)
Definition trim (s : string) : string := trimEnd (trimStart s).

(** [(process.env.KGR_CORS || "").split(",").map(s => s.trim())
    .filter(Boolean)] *)
Definition ALLOWED (env : option string) : list string :=
  filter (fun s => negb (String.eqb s ""))
    (map trim (split_comma (match env with
                            | Some e => e
                            | None => ""
                            end))).

(** The [origin] callback handed to [cors]: the decision passed to
    [cb]; [origin] is [None] for a request without the header. *)
Definition origin_allowed (allowed : list string) (origin : option string)
  : bool :=
  if (List.length allowed =? 0)%nat then true
  else match origin with
       | None => true
       | Some o =>
           if String.eqb o "" then true
           else existsb (String.eqb o) allowed
       end.

(** [l.join(",")] *)
Fixpoint join_comma (l : list string) : string :=
  match l with
  | [] => ""
  | [s] => s
  | s :: rest => s ++ "," ++ join_comma rest
  end.

(** A text as [ALLOWED] keeps it: not empty, no comma, no white space
    at either end. *)
Definition clean_origin (s : string) : Prop :=
  s <> "" /\ trim s = s /\
  forallb (fun c => negb (Ascii.eqb c ",")) (list_ascii_of_string s) = true.

(** * Properties *)

(** ** Running composed computations *)

Section RunLemmas.
Context {rt : JsRuntime}.

Lemma run_bind (A B : Type) (p : Proc A) (f : A -> Proc B) w db :
  run w db (bind p f) =
  match run w db p with
  | (db', Ok a) => run w db' (f a)
  | (db', Err e) => (db', Err e)
  end.
Proof.
  revert db. induction p as [a | e | X c k IH]; intros db; simpl; auto.
  destruct (perform w db c) as [db' r]. apply IH.
Qed.

Lemma run_tryCatch (A : Type) (p : Proc A) (h : JsError -> Proc A) w db :
  run w db (tryCatch p h) =
  match run w db p with
  | (db', Ok a) => (db', Ok a)
  | (db', Err e) => run w db' (h e)
  end.
Proof.
  revert db. induction p as [a | e | X c k IH]; intros db; simpl; auto.
  destruct (perform w db c) as [db' r]. apply IH.
Qed.

Lemma run_await (X : Type) (c : Call X) w db :
  run w db (await c) = perform w db c.
Proof.
  unfold await. simpl. destruct (perform w db c) as [db' [x | e]]; reflexivity.
Qed.

Lemma run_getJson w db url :
  run w db (getJson url) = (db, getJson_outcome w url).
Proof.
  unfold getJson, getJson_outcome. rewrite run_bind, run_await. simpl.
  destruct (fetch w url) as [r | e]; [ | reflexivity].
  destruct (ok r); simpl; [ | reflexivity].
  destruct (json r); reflexivity.
Qed.

Lemma run_isRecent w db iso minutes :
  run w db (isRecent iso minutes) =
  (db, Ok (within_minutes (Date_now w) iso minutes)).
Proof. reflexivity. Qed.

Lemma run_txAlreadyUsed w db v :
  run w db (txAlreadyUsed v) =
  (db, Ok (0 <? List.length (select_tx_hash db (prepareValue v)))%nat).
Proof. reflexivity. Qed.

Lemma run_server_error w db e :
  exists text, run w db (server_error e) = (db, Ok (send 500 text)).
Proof. eexists. reflexivity. Qed.

Lemma ToString_printable (j : Json) :
  printable j = true -> ToString j = Ok (String_ j).
Proof. unfold ToString. intros ->. reflexivity. Qed.

Lemma ToString_unprintable (j : Json) :
  printable j = false -> ToString j = Err type_error.
Proof. unfold ToString. intros ->. reflexivity. Qed.

Lemma run_template w db url (txHash : Json) :
  run w db (template url txHash) =
  (db, if printable txHash then Ok (url txHash) else Err type_error).
Proof.
  unfold template, ToString. destruct (printable txHash); reflexivity.
Qed.

(** A well-formed address is the image of a value that has one. *)
Lemma address_re_printable (j : Json) :
  address_re (toUpperCase (String_ j)) = true -> printable j = true.
Proof. destruct j as [v | q]; [reflexivity | discriminate]. Qed.

(** The second part of the submit handler, run alone. *)
Lemma run_verifyAndStore w db respond req addr :
  run w db (tryCatch (verifyAndStore respond req addr) server_error) =
  if negb (printable (body_txHash req))
  then (db, Ok (send 500 "Cannot convert object to primitive value"))
  else
  match getJson_outcome w (transaction_url (body_txHash req)) with
  | Err e => run w db (server_error e)
  | Ok tx =>
    if negb (strict_eq_true (successful tx))
    then (db, Ok (send 400 "tx not successful"))
    else if truthy (memo_type tx)
            && negb (strict_eq_str (memo_type tx) "none")
    then (db, Ok (send 400 "memos not allowed"))
    else if negb (within_minutes (Date_now w) (tx_created_at tx) 30)
    then (db, Ok (send 400 "tx too old"))
    else
      match getJson_outcome w (operations_url (body_txHash req)) with
      | Err e => run w db (server_error e)
      | Ok opsPage =>
        if negb (List.length (filter (validPay addr)
                                (embedded_records opsPage)) =? 1)%nat
        then (db, Ok (send 400
                        "no valid KALE payment op to treasury from address"))
        else
          match insert_score (NOW w) db addr (clampScore (body_score req))
                  (prepareValue (body_txHash req)) (tx_created_at tx)
                  (or_null (req_ip req)) (or_null (user_agent req)) with
          | (db1, Err e) => run w db1 (server_error e)
          | (db1, Ok _) => run w db1 (tryCatch respond server_error)
          end
      end
  end.
Proof.
  unfold verifyAndStore.
  rewrite run_tryCatch, run_bind, run_template.
  destruct (printable (body_txHash req)) eqn:Hhash; [ | reflexivity].
  cbn [negb]. rewrite run_bind, run_getJson.
  destruct (getJson_outcome w (transaction_url (body_txHash req)))
    as [tx | e]; [ | reflexivity].
  destruct (negb (strict_eq_true (successful tx))); [reflexivity | ].
  destruct (truthy (memo_type tx)
            && negb (strict_eq_str (memo_type tx) "none")); [reflexivity | ].
  rewrite run_bind, run_isRecent.
  destruct (negb (within_minutes (Date_now w) (tx_created_at tx) 30));
    [reflexivity | ].
  rewrite run_bind, run_template, Hhash, run_bind, run_getJson.
  destruct (getJson_outcome w (operations_url (body_txHash req)))
    as [opsPage | e]; [ | reflexivity].
  cbv zeta.
  destruct (negb (List.length (filter (validPay addr)
                                 (embedded_records opsPage)) =? 1)%nat);
    [reflexivity | ].
  rewrite run_bind, run_await. cbn [perform].
  destruct (insert_score _ _ _ _ _ _ _ _) as [db1 [[] | e]].
  - symmetry. apply run_tryCatch.
  - reflexivity.
Qed.

(** The whole submit handler, run alone. *)
Lemma run_submitScore_handler w db respond req :
  run w db (submitScore_handler respond req) =
  if negb (truthy (body_txHash req)) || negb (truthy (body_address req))
     || negb (String.eqb (typeof (body_score req)) "number")
  then (db, Ok (send 400 "txHash, address, score required"))
  else if negb (printable (body_address req))
  then (db, Ok (send 500 "Cannot convert object to primitive value"))
  else if negb (address_re (toUpperCase (String_ (body_address req))))
  then (db, Ok (send 400 "bad address"))
  else if (0 <? List.length
                  (select_tx_hash db (prepareValue (body_txHash req))))%nat
  then (db, Ok (send 409 "tx already used"))
  else run w db (tryCatch
                   (verifyAndStore respond req
                      (toUpperCase (String_ (body_address req))))
                   server_error).
Proof.
  unfold submitScore_handler. cbv zeta.
  destruct (negb (truthy (body_txHash req)) || negb (truthy (body_address req))
            || negb (String.eqb (typeof (body_score req)) "number"));
    [reflexivity | ].
  unfold ToString.
  destruct (printable (body_address req)); [ | reflexivity].
  cbn [negb of_result bind].
  destruct (negb (address_re (toUpperCase (String_ (body_address req)))));
    [reflexivity | ].
  rewrite run_tryCatch, run_bind, run_txAlreadyUsed.
  destruct (0 <? List.length
                   (select_tx_hash db (prepareValue (body_txHash req))))%nat;
    [reflexivity | ].
  symmetry. apply run_tryCatch.
Qed.

End RunLemmas.

(** ** Score normalisation *)

Lemma Qle_bool_inject_Z (a b : Z) :
  Qle_bool (inject_Z a) (inject_Z b) = (a <=? b).
Proof.
  unfold Qle_bool, inject_Z. simpl. rewrite !Z.mul_1_r. reflexivity.
Qed.

Lemma js_lt_of_Z (a b : Z) : js_lt (of_Z a) (of_Z b) = (a <? b).
Proof.
  unfold js_lt, of_Z. rewrite Qle_bool_inject_Z.
  rewrite Z.ltb_antisym. reflexivity.
Qed.

Lemma Math_min_of_Z (a b : Z) : Math_min (of_Z a) (of_Z b) = of_Z (Z.min a b).
Proof.
  cbv beta iota delta [Math_min of_Z js_lt].
  rewrite Qle_bool_inject_Z.
  destruct (Z.leb_spec a b); cbn [negb]; do 2 f_equal; lia.
Qed.

Section ClampScore.
Context {rt : JsRuntime}.

Lemma clampScore_cases (raw : JsValue) :
  clampScore raw =
    match Number raw with
    | Fin q => if Qfloor q <? 0 then of_Z 0
               else of_Z (Z.min (Qfloor q) 1000000000)
    | NaN | PosInf | NegInf => of_Z 0
    end.
Proof.
  unfold clampScore. destruct (Number raw) as [ | | | q]; try reflexivity.
  cbn [Math_floor Number_isFinite negb orb].
  change (Number_isFinite (of_Z (Qfloor q))) with true.
  cbn [negb orb]. rewrite js_lt_of_Z.
  destruct (Qfloor q <? 0); [reflexivity | apply Math_min_of_Z].
Qed.

Lemma clampScore_range (raw : JsValue) :
  exists z : Z, clampScore raw = of_Z z /\ 0 <= z <= 1000000000.
Proof.
  rewrite clampScore_cases. destruct (Number raw) as [ | | | q];
    try (exists 0; split; [reflexivity | lia]).
  destruct (Z.ltb_spec (Qfloor q) 0).
  - exists 0. split; [reflexivity | lia].
  - exists (Z.min (Qfloor q) 1000000000). split; [reflexivity | lia].
Qed.

(** C6.  [clampScore] is defined on every input.  With [n] the floor of
    [Number(raw)]: when [n] is not finite or negative the result is 0,
    otherwise it is the smaller of [n] and 1,000,000,000.  Hence the
    result is always an integer between 0 and 1,000,000,000, and a
    non-numeric or non-finite input gives 0. *)
Theorem clampScore_total_bounded (raw : JsValue) :
  clampScore raw =
    match Number raw with
    | Fin q => if Qfloor q <? 0 then of_Z 0
               else of_Z (Z.min (Qfloor q) 1000000000)
    | NaN | PosInf | NegInf => of_Z 0
    end
  /\ exists z : Z, clampScore raw = of_Z z /\ 0 <= z <= 1000000000.
Proof.
  split; [apply clampScore_cases | apply clampScore_range].
Qed.

End ClampScore.

(** ** Recency *)

Section Recency.
Context {rt : JsRuntime}.

(** C9.  [isRecent(t, 30)] always returns.  For a parseable creation
    time [t] it returns true exactly when [now - t] is at most 30
    minutes, so it returns true for every [t] in the future of [now];
    it returns false exactly when [t] is more than 30 minutes in the
    past, and for an unparseable date. *)
Theorem isRecent_one_sided (w : World) (db : Store) (iso : JsValue) :
  exists b : bool,
    run w db (isRecent iso 30) = (db, Ok b) /\
    match Date_getTime iso with
    | Some t =>
        (b = true <-> Date_now w - t <= 30 * 60 * 1000) /\
        (Date_now w < t -> b = true) /\
        (b = false <-> 30 * 60 * 1000 < Date_now w - t)
    | None => b = false
    end.
Proof.
  exists (within_minutes (Date_now w) iso 30).
  split; [apply run_isRecent | ].
  unfold within_minutes. destruct (Date_getTime iso) as [t | ]; [ | reflexivity].
  destruct (Z.leb_spec (Date_now w - t) (30 * 60 * 1000)); repeat split;
    intros; try lia; try discriminate; auto.
Qed.

End Recency.

(** ** What an accepted submission went through *)

Lemma Qeq_bool_inject_Z (z : Z) : Qeq_bool (inject_Z z) (inject_Z z) = true.
Proof. apply Qeq_bool_iff. reflexivity. Qed.

Lemma sql_bigint_of_Z (z z' : Z) : sql_bigint (of_Z z) = Some z' -> z' = z.
Proof.
  unfold sql_bigint, of_Z. rewrite Qfloor_Z.
  destruct (_ && _); congruence.
Qed.

Lemma sql_bigint_small (z : Z) :
  0 <= z <= 1000000000 -> sql_bigint (of_Z z) = Some z.
Proof.
  intros Hz. unfold sql_bigint, of_Z. rewrite Qfloor_Z, Qeq_bool_inject_Z.
  replace (- 9223372036854775808 <=? z) with true
    by (symmetry; apply Z.leb_le; lia).
  replace (z <=? 9223372036854775807) with true
    by (symmetry; apply Z.leb_le; lia).
  reflexivity.
Qed.

Section Accepted.
Context {rt : JsRuntime}.

Lemma insert_score_ok now db a s h paid i u db1 :
  insert_score now db a s h paid i u = (db1, Ok tt) ->
  exists z hh paidz,
    sql_bigint s = Some z /\ h = Some hh /\ timestamptz_in paid = Some paidz /\
    existsb (fun r => String.eqb (tx_hash r) hh) (rows db) = false /\
    db1 = mkStore (mkRow (next_id db) a z hh paidz now i u :: rows db)
                  (next_id db + 1) (score_check db)
                  (mkRow (next_id db) a z hh paidz now i u :: inserted db).
Proof.
  unfold insert_score. intros H.
  destruct (sql_bigint s) as [z | ]; [ | discriminate].
  destruct (timestamptz_in paid) as [paidz | ]; [ | discriminate].
  destruct h as [hh | ]; [ | discriminate].
  destruct (score_check db && _); [discriminate | ].
  destruct (existsb _ (rows db)) eqn:E; [discriminate | ].
  destruct (index_row_error hh); [discriminate | ].
  exists z, hh, paidz. injection H as <-. auto.
Qed.

(** A failing INSERT leaves the table and the history as they were. *)
Lemma insert_score_err now db a s h paid i u db1 e :
  insert_score now db a s h paid i u = (db1, Err e) ->
  rows db1 = rows db /\ inserted db1 = inserted db /\
  score_check db1 = score_check db /\ next_id db <= next_id db1.
Proof.
  unfold insert_score. intros H.
  destruct (sql_bigint s) as [z | ];
    [ | injection H as <- _; repeat split; lia].
  destruct (timestamptz_in paid) as [paidz | ];
    [ | injection H as <- _; repeat split; lia].
  destruct h as [hh | ];
    [ | injection H as <- _; cbn; repeat split; lia].
  destruct (score_check db && _);
    [injection H as <- _; cbn; repeat split; lia | ].
  destruct (existsb _ (rows db));
    [injection H as <- _; cbn; repeat split; lia | ].
  destruct (index_row_error hh);
    [injection H as <- _; cbn; repeat split; lia | discriminate].
Qed.

Ltac refused H H200 :=
  solve [ injection H as <- <-; discriminate H200
        | destruct (run_server_error _ _ _) as [? E]; rewrite E in H;
          injection H as <- <-; discriminate H200 ].

(** A 200 response means every check passed and the INSERT went
    through. *)
Lemma accepted_inv w db respond req db' r :
  run w db (submitScore_handler respond req) = (db', Ok r) ->
  status r = 200 ->
  exists tx opsPage db1,
    truthy (body_txHash req) = true /\
    truthy (body_address req) = true /\
    typeof (body_score req) = "number" /\
    address_re (toUpperCase (String_ (body_address req))) = true /\
    select_tx_hash db (prepareValue (body_txHash req)) = [] /\
    getJson_outcome w (transaction_url (body_txHash req)) = Ok tx /\
    successful tx = JBool true /\
    truthy (memo_type tx) && negb (strict_eq_str (memo_type tx) "none")
      = false /\
    within_minutes (Date_now w) (tx_created_at tx) 30 = true /\
    getJson_outcome w (operations_url (body_txHash req)) = Ok opsPage /\
    List.length (filter (validPay (toUpperCase (String_ (body_address req))))
                   (embedded_records opsPage)) = 1%nat /\
    insert_score (NOW w) db (toUpperCase (String_ (body_address req)))
      (clampScore (body_score req)) (prepareValue (body_txHash req))
      (tx_created_at tx) (or_null (req_ip req)) (or_null (user_agent req))
      = (db1, Ok tt) /\
    run w db1 (tryCatch respond server_error) = (db', Ok r).
Proof.
  intros H H200. rewrite run_submitScore_handler in H.
  destruct (truthy (body_txHash req)) eqn:E1; [ | refused H H200].
  destruct (truthy (body_address req)) eqn:E2; [ | refused H H200].
  destruct (String.eqb_spec (typeof (body_score req)) "number") as [E3 | E3];
    [ | refused H H200].
  cbn [negb orb] in H.
  destruct (printable (body_address req)); [ | refused H H200].
  cbn [negb] in H.
  destruct (address_re _) eqn:E4; [ | refused H H200]. cbn [negb] in H.
  destruct (select_tx_hash db _) eqn:E5; [ | refused H H200].
  cbn [List.length Nat.ltb Nat.leb] in H.
  rewrite run_verifyAndStore in H.
  destruct (printable (body_txHash req)); [ | refused H H200].
  cbn [negb] in H.
  destruct (getJson_outcome w (transaction_url _)) as [tx | e] eqn:E6;
    [ | refused H H200].
  destruct (successful tx) as [ | | [ | ] | | | ] eqn:E7;
    try refused H H200.
  cbn [strict_eq_true negb] in H.
  destruct (truthy (memo_type tx) && _) eqn:E8; [refused H H200 | ].
  destruct (within_minutes _ _ _) eqn:E9; [ | refused H H200].
  cbn [negb] in H.
  destruct (getJson_outcome w (operations_url _)) as [opsPage | e] eqn:E10;
    [ | refused H H200].
  destruct (Nat.eqb_spec (List.length
              (filter (validPay (toUpperCase (String_ (body_address req))))
                 (embedded_records opsPage))) 1) as [E11 | E11];
    [ | refused H H200].
  cbn [negb] in H.
  destruct (insert_score _ _ _ _ _ _ _ _) as [db1 [[] | e]] eqn:E12;
    [ | refused H H200].
  exists tx, opsPage, db1. repeat split; auto.
Qed.

(** The submit handler always sends a response, whatever follows the
    INSERT, as long as that part itself settles. *)
Lemma submitScore_handler_responds w db respond req :
  (forall db1, exists db2 r2,
      run w db1 (tryCatch respond server_error) = (db2, Ok r2)) ->
  exists db' r, run w db (submitScore_handler respond req) = (db', Ok r).
Proof.
  intros Hresp. rewrite run_submitScore_handler.
  destruct (_ || _); [eauto | ].
  destruct (negb (printable (body_address req))); [eauto | ].
  destruct (negb (address_re _)); [eauto | ].
  destruct (_ <? _)%nat; [eauto | ].
  rewrite run_verifyAndStore.
  destruct (negb (printable (body_txHash req))); [eauto | ].
  destruct (getJson_outcome w (transaction_url _)) as [tx | e];
    [ | destruct (run_server_error w db e) as [? ->]; eauto].
  destruct (negb (strict_eq_true _)); [eauto | ].
  destruct (truthy _ && _); [eauto | ].
  destruct (negb (within_minutes _ _ _)); [eauto | ].
  destruct (getJson_outcome w (operations_url _)) as [opsPage | e];
    [ | destruct (run_server_error w db e) as [? ->]; eauto].
  destruct (negb (_ =? _)%nat); [eauto | ].
  destruct (insert_score _ _ _ _ _ _ _ _) as [db1 [[] | e]].
  - apply Hresp.
  - destruct (run_server_error w db1 e) as [? ->]; eauto.
Qed.

End Accepted.

(** ** What follows the INSERT *)

Section AfterInsert.
Context {rt : JsRuntime}.

Lemma submitScore_of_handler v :
  submitScore_of v = submitScore_handler (respond_of v).
Proof. destruct v; reflexivity. Qed.

Lemma run_respond_of v w db :
  exists top,
    run w db (tryCatch (respond_of v) server_error) =
    (store_after v db, Ok (mkResponse 200 (OkTop10 top))).
Proof. destruct v; eexists; reflexivity. Qed.

Lemma inserted_store_after v db : inserted (store_after v db) = inserted db.
Proof. destruct v; reflexivity. Qed.

(** The store after an accepted submission: the row was written, and
    variant 1 then trimmed the table. *)
Lemma accepted_store v w db req db' r :
  run w db (submitScore_of v req) = (db', Ok r) ->
  status r = 200 ->
  exists row hh paidz z,
    prepareValue (body_txHash req) = Some hh /\
    sql_bigint (clampScore (body_score req)) = Some z /\
    existsb (fun r => String.eqb (tx_hash r) hh) (rows db) = false /\
    row = mkRow (next_id db) (toUpperCase (String_ (body_address req)))
                z hh paidz (NOW w)
                (or_null (req_ip req)) (or_null (user_agent req)) /\
    db' = store_after v
            (mkStore (row :: rows db) (next_id db + 1) (score_check db)
                     (row :: inserted db)).
Proof.
  intros H H200. rewrite submitScore_of_handler in H.
  destruct (accepted_inv _ _ _ _ _ _ H H200)
    as (tx & opsPage & db1 & _ & _ & _ & _ & _ & _ & _ & _ & _ & _ & _
        & Hins & Hrun).
  destruct (insert_score_ok _ _ _ _ _ _ _ _ _ Hins)
    as (z & hh & paidz & Hz & Hh & _ & Hex & Hdb1).
  destruct (run_respond_of v w db1) as [top E]. rewrite E in Hrun.
  injection Hrun as <- _. subst db1.
  eexists _, hh, paidz, z; repeat split; auto.
Qed.

(** In both variants the submit handler always sends a response. *)
Lemma submitScore_responds v w db req :
  exists db' r, run w db (submitScore_of v req) = (db', Ok r).
Proof.
  rewrite submitScore_of_handler.
  apply submitScore_handler_responds; intros db1.
  destruct (run_respond_of v w db1) as [top ->]. eauto.
Qed.

(** C7.  When a submission is accepted (the response is a 200), the
    INSERT added one row to the table, and the score of that row is
    [clampScore(score)] of the submitted score.  The table afterwards is
    the old table with that row added (and, in variant 1, trimmed by
    the DELETE that follows); the row carries the request's [txHash]
    and upper-cased address. *)
Theorem stored_score_is_clamped v w db req db' r :
  run w db (submitScore_of v req) = (db', Ok r) ->
  status r = 200 ->
  exists row,
    db' = store_after v
            (mkStore (row :: rows db) (next_id db + 1) (score_check db)
                     (row :: inserted db)) /\
    (v = NoPrune -> rows db' = row :: rows db) /\
    inserted db' = row :: inserted db /\
    of_Z (score row) = clampScore (body_score req) /\
    Some (tx_hash row) = prepareValue (body_txHash req) /\
    address row = toUpperCase (String_ (body_address req)).
Proof.
  intros H H200.
  destruct (accepted_store _ _ _ _ _ _ H H200)
    as (row & hh & paidz & z & Hh & Hz & _ & Hrow & Hdb).
  exists row.
  destruct (clampScore_range (body_score req)) as (z0 & E & _).
  rewrite E in Hz. apply sql_bigint_of_Z in Hz. subst z0.
  split; [exact Hdb | ].
  split; [intros ->; rewrite Hdb; reflexivity | ].
  split; [rewrite Hdb; apply inserted_store_after | ].
  subst row. cbn [score tx_hash address]. rewrite E, Hh. auto.
Qed.

End AfterInsert.

(** ** Memo and payment checks *)

Lemma strict_eq_str_iff (v : JsValue) (lit : string) :
  strict_eq_str v lit = true <-> v = JStr lit.
Proof.
  destruct v; simpl; split; try discriminate.
  - intros H. apply String.eqb_eq in H. congruence.
  - intros H. injection H as ->. apply String.eqb_refl.
Qed.

Lemma validPay_iff (addr : string) (o : OperationRecord) :
  validPay addr o = true <->
  op_type o = JStr "payment" /\
  op_to o = JStr TREASURY /\
  (asset_type o = JStr "credit_alphanum4"
   \/ asset_type o = JStr "credit_alphanum12") /\
  asset_code o = JStr KALE_CODE /\
  asset_issuer o = JStr KALE_ISSUER /\
  amount o = JStr "1.0000000" /\
  op_from o = JStr addr.
Proof.
  unfold validPay.
  rewrite !andb_true_iff, orb_true_iff, !strict_eq_str_iff. tauto.
Qed.

Lemma truthy_prepareValue {rt : JsRuntime} (v : JsValue) :
  truthy v = true -> exists h, prepareValue v = Some h.
Proof. destruct v; simpl; intros H; try discriminate; eauto. Qed.

(** A replay pre-check that finds nothing: no row carries the hash. *)
Lemma precheck_miss db h :
  select_tx_hash db (Some h) = [] ->
  existsb (fun r => String.eqb (tx_hash r) h) (rows db) = false.
Proof.
  unfold select_tx_hash. induction (rows db) as [ | r l IH]; simpl.
  - reflexivity.
  - destruct (String.eqb (tx_hash r) h); simpl; [discriminate | exact IH].
Qed.

Section Checks.
Context {rt : JsRuntime}.

(** The handler at the memo check. *)
Lemma run_from_memo_check w db respond req tx :
  reaches_memo_check w db req tx ->
  run w db (submitScore_handler respond req) =
  if truthy (memo_type tx) && negb (strict_eq_str (memo_type tx) "none")
  then (db, Ok (send 400 "memos not allowed"))
  else if negb (within_minutes (Date_now w) (tx_created_at tx) 30)
  then (db, Ok (send 400 "tx too old"))
  else
    match getJson_outcome w (operations_url (body_txHash req)) with
    | Err e => run w db (server_error e)
    | Ok opsPage =>
      if negb (List.length
                 (filter (validPay (toUpperCase (String_ (body_address req))))
                    (embedded_records opsPage)) =? 1)%nat
      then (db, Ok (send 400
                      "no valid KALE payment op to treasury from address"))
      else
        match insert_score (NOW w) db (toUpperCase (String_ (body_address req)))
                (clampScore (body_score req))
                (prepareValue (body_txHash req)) (tx_created_at tx)
                (or_null (req_ip req)) (or_null (user_agent req)) with
        | (db1, Err e) => run w db1 (server_error e)
        | (db1, Ok _) => run w db1 (tryCatch respond server_error)
        end
    end.
Proof.
  intros ((Ht & Ha & Hs & Hpa & Hre & Hsel & Hph) & Htx & Hok).
  rewrite run_submitScore_handler, Ht, Ha, Hs, Hpa, Hre, Hsel.
  change (String.eqb "number" "number") with true.
  cbn [negb orb List.length Nat.ltb Nat.leb].
  rewrite run_verifyAndStore, Hph, Htx, Hok. reflexivity.
Qed.

(** The handler once the payment check has passed, when the database
    can read the time stamp and index the [txHash]: the INSERT goes
    through and the request is answered with a 200. *)
Lemma verified_submission_accepted v w db req tx opsPage paidz hh z :
  reaches_payment_check w db req tx opsPage ->
  List.length (filter (validPay (toUpperCase (String_ (body_address req))))
                 (embedded_records opsPage)) = 1%nat ->
  timestamptz_in (tx_created_at tx) = Some paidz ->
  prepareValue (body_txHash req) = Some hh ->
  index_row_error hh = None ->
  clampScore (body_score req) = of_Z z ->
  let row := mkRow (next_id db) (toUpperCase (String_ (body_address req)))
                   z hh paidz (NOW w)
                   (or_null (req_ip req)) (or_null (user_agent req)) in
  exists top,
    run w db (submitScore_of v req) =
    (store_after v
       (mkStore (row :: rows db) (next_id db + 1) (score_check db)
                (row :: inserted db)),
     Ok (mkResponse 200 (OkTop10 top))).
Proof.
  intros (Hmemo & Hm & Hrecent & Hops) Hone Hpaid Hh Hfits Hz row.
  assert (Hsel : select_tx_hash db (Some hh) = []).
  { destruct Hmemo as ((_ & _ & _ & _ & _ & Hsel & _) & _).
    rewrite Hh in Hsel. exact Hsel. }
  assert (Hrange : 0 <= z <= 1000000000).
  { destruct (clampScore_range (body_score req)) as (z0 & E & Hr).
    rewrite Hz in E. injection E as ->. exact Hr. }
  rewrite submitScore_of_handler, (run_from_memo_check _ _ _ _ _ Hmemo).
  rewrite Hm, Hrecent, Hops, Hone. cbn [negb Nat.eqb].
  unfold insert_score.
  rewrite Hz, (sql_bigint_small _ Hrange), Hpaid, Hh.
  replace ((0 <=? z) && (z <=? 1000000000)) with true
    by (symmetry; apply andb_true_intro; split; apply Z.leb_le; lia).
  cbn [negb]. rewrite andb_false_r.
  rewrite (precheck_miss _ _ Hsel), Hfits.
  apply run_respond_of.
Qed.

End Checks.

Section MemoAndPayment.
Context {rt : JsRuntime}.

(** C5 (as amended).  At the memo check the handler tests
    [tx.memo_type && tx.memo_type !== "none"].  It answers "memos not
    allowed" exactly when [memo_type] is truthy and different from
    ["none"]; a falsy [memo_type] (absent, [null], [false], [0], [NaN] or
    the empty string) and the value ["none"] pass the check. *)
Theorem memo_check_by_truthiness v w db req tx :
  reaches_memo_check w db req tx ->
  (truthy (memo_type tx) = true /\ memo_type tx <> JStr "none" ->
   run w db (submitScore_of v req) = (db, Ok (send 400 "memos not allowed")))
  /\
  (truthy (memo_type tx) = false \/ memo_type tx = JStr "none" ->
   exists db' r,
     run w db (submitScore_of v req) = (db', Ok r) /\
     r <> send 400 "memos not allowed").
Proof.
  intros Hreach. rewrite submitScore_of_handler.
  rewrite (run_from_memo_check _ _ _ _ _ Hreach). split.
  - intros [Htruthy Hnone]. rewrite Htruthy.
    destruct (strict_eq_str (memo_type tx) "none") eqn:E.
    + apply strict_eq_str_iff in E. contradiction.
    + reflexivity.
  - intros Hpass.
    assert (E : truthy (memo_type tx)
                && negb (strict_eq_str (memo_type tx) "none") = false).
    { destruct Hpass as [-> | ->]; [reflexivity | ].
      apply andb_false_intro2. reflexivity. }
    rewrite E.
    destruct (negb (within_minutes _ _ _));
      [eexists _, _; split; [reflexivity | discriminate] | ].
    destruct (getJson_outcome w (operations_url _)) as [opsPage | e];
      [ | destruct (run_server_error w db e) as [? ->];
          eexists _, _; split; [reflexivity | discriminate]].
    destruct (negb (_ =? _)%nat);
      [eexists _, _; split; [reflexivity | discriminate] | ].
    destruct (insert_score _ _ _ _ _ _ _ _) as [db1 [[] | e]].
    + destruct (run_respond_of v w db1) as [top ->].
      eexists _, _; split; [reflexivity | discriminate].
    + destruct (run_server_error w db1 e) as [? ->].
      eexists _, _; split; [reflexivity | discriminate].
Qed.

(** C4.  Once the earlier checks have passed, the handler counts the
    operations of the fetched page that are payments to the treasury of
    the KALE asset (one of the two credit asset types, the fixed code
    and issuer) with amount exactly "1.0000000" and the upper-cased
    claimed address as source.  A count other than one (none, or two or
    more) is answered with the no-valid-payment rejection; a count of
    one is not; and a submission is accepted only when the count is one. *)
Theorem exactly_one_valid_payment v w db req tx opsPage :
  reaches_payment_check w db req tx opsPage ->
  let addr := toUpperCase (String_ (body_address req)) in
  let n := List.length (filter (validPay addr) (embedded_records opsPage)) in
  (n <> 1%nat ->
   run w db (submitScore_of v req) =
   (db, Ok (send 400 "no valid KALE payment op to treasury from address")))
  /\
  (n = 1%nat ->
   exists db' r,
     run w db (submitScore_of v req) = (db', Ok r) /\
     r <> send 400 "no valid KALE payment op to treasury from address")
  /\
  (forall db' r,
     run w db (submitScore_of v req) = (db', Ok r) -> status r = 200 ->
     n = 1%nat)
  /\
  (forall o,
     validPay addr o = true <->
     op_type o = JStr "payment" /\
     op_to o = JStr TREASURY /\
     (asset_type o = JStr "credit_alphanum4"
      \/ asset_type o = JStr "credit_alphanum12") /\
     asset_code o = JStr KALE_CODE /\
     asset_issuer o = JStr KALE_ISSUER /\
     amount o = JStr "1.0000000" /\
     op_from o = JStr addr).
Proof.
  intros (Hmemo & Hm & Hrecent & Hops) addr n.
  assert (Hrun : forall respond,
    run w db (submitScore_handler respond req) =
    if negb (n =? 1)%nat
    then (db, Ok (send 400
                    "no valid KALE payment op to treasury from address"))
    else
      match insert_score (NOW w) db addr (clampScore (body_score req))
              (prepareValue (body_txHash req)) (tx_created_at tx)
              (or_null (req_ip req)) (or_null (user_agent req)) with
      | (db1, Err e) => run w db1 (server_error e)
      | (db1, Ok _) => run w db1 (tryCatch respond server_error)
      end).
  { intros respond. rewrite (run_from_memo_check _ _ _ _ _ Hmemo).
    rewrite Hm, Hrecent, Hops. reflexivity. }
  rewrite submitScore_of_handler.
  split; [ | split; [ | split]].
  - intros Hn. rewrite Hrun.
    destruct (Nat.eqb_spec n 1); [contradiction | reflexivity].
  - intros Hn. rewrite Hrun, Hn. cbn [Nat.eqb negb].
    destruct (insert_score _ _ _ _ _ _ _ _) as [db1 [[] | e]].
    + destruct (run_respond_of v w db1) as [top ->].
      eexists _, _; split; [reflexivity | discriminate].
    + destruct (run_server_error w db1 e) as [? ->].
      eexists _, _; split; [reflexivity | discriminate].
  - intros db' r H H200. rewrite Hrun in H.
    destruct (Nat.eqb_spec n 1); [assumption | ].
    cbn [negb] in H. injection H as _ <-. discriminate H200.
  - intros o. apply validPay_iff.
Qed.

End MemoAndPayment.

(** ** A score that is not finite *)

Section NonFiniteScore.
Context {rt : JsRuntime}.

Lemma clampScore_non_finite (j : Json) x :
  j = JNum x -> Number_isFinite x = false -> clampScore j = of_Z 0.
Proof.
  intros -> Hfin. destruct x; [reflexivity .. | discriminate Hfin].
Qed.

(** C10.  A submission whose score is [NaN], [Infinity] or [-Infinity]
    passes the shape check: given a [txHash] and an address it is not
    answered with the missing-fields rejection.  When its verification
    succeeds (the request reaches the payment check, exactly one
    operation qualifies, and the database can read the transaction's
    time stamp and index the [txHash]) it is accepted, and the row the
    INSERT adds to the table has score 0; and whenever such a submission
    is accepted, the row added to the table has score 0. *)
Theorem non_finite_score_stored_as_zero v w db req x :
  body_score req = JNum x ->
  Number_isFinite x = false ->
  truthy (body_txHash req) = true ->
  truthy (body_address req) = true ->
  typeof (body_score req) = "number" /\
  (exists db' r,
     run w db (submitScore_of v req) = (db', Ok r) /\
     r <> send 400 "txHash, address, score required" /\
     (status r = 200 ->
      exists row,
        db' = store_after v
                (mkStore (row :: rows db) (next_id db + 1) (score_check db)
                         (row :: inserted db)) /\
        inserted db' = row :: inserted db /\
        score row = 0))
  /\
  (forall tx opsPage paidz hh,
     reaches_payment_check w db req tx opsPage ->
     List.length (filter (validPay (toUpperCase (String_ (body_address req))))
                    (embedded_records opsPage)) = 1%nat ->
     timestamptz_in (tx_created_at tx) = Some paidz ->
     prepareValue (body_txHash req) = Some hh ->
     index_row_error hh = None ->
     exists top,
       let row := mkRow (next_id db)
                        (toUpperCase (String_ (body_address req)))
                        0 hh paidz (NOW w)
                        (or_null (req_ip req)) (or_null (user_agent req)) in
       run w db (submitScore_of v req) =
       (store_after v
          (mkStore (row :: rows db) (next_id db + 1) (score_check db)
                   (row :: inserted db)),
        Ok (mkResponse 200 (OkTop10 top)))).
Proof.
  intros Hx Hfin Ht Ha.
  assert (Hzero : clampScore (body_score req) = of_Z 0)
    by (apply (clampScore_non_finite _ x); assumption).
  split; [rewrite Hx; reflexivity | ].
  split.
  - destruct (submitScore_responds v w db req) as (db' & r & Hrun).
    exists db', r. split; [exact Hrun | ]. split.
    + intros ->.
      assert (Hgen : forall respond,
        (forall db1 db2 r2,
           run w db1 (tryCatch respond server_error) = (db2, Ok r2) ->
           status r2 = 200) ->
        run w db (submitScore_handler respond req) <>
        (db', Ok (send 400 "txHash, address, score required"))).
      { intros respond Hresp. rewrite run_submitScore_handler.
        rewrite Ht, Ha, Hx. cbn [typeof plain String.eqb negb orb].
        change (String.eqb "number" "number") with true. cbn [negb orb].
        destruct (negb (printable (body_address req))); [discriminate | ].
        destruct (negb (address_re _)); [discriminate | ].
        destruct (_ <? _)%nat; [discriminate | ].
        rewrite run_verifyAndStore.
        destruct (negb (printable (body_txHash req))); [discriminate | ].
        destruct (getJson_outcome w (transaction_url _)) as [tx | e];
          [ | destruct (run_server_error w db e) as [? ->]; discriminate].
        destruct (negb (strict_eq_true _)); [discriminate | ].
        destruct (truthy _ && _); [discriminate | ].
        destruct (negb (within_minutes _ _ _)); [discriminate | ].
        destruct (getJson_outcome w (operations_url _)) as [opsPage | e];
          [ | destruct (run_server_error w db e) as [? ->]; discriminate].
        destruct (negb (_ =? _)%nat); [discriminate | ].
        destruct (insert_score _ _ _ _ _ _ _ _) as [db1 [[] | e]].
        - intros E. apply Hresp in E. discriminate E.
        - destruct (run_server_error w db1 e) as [? ->]; discriminate. }
      rewrite submitScore_of_handler in Hrun. revert Hrun. apply Hgen.
      intros db1 db2 r2. destruct (run_respond_of v w db1) as [top ->].
      intros E. injection E as _ <-. reflexivity.
    + intros H200.
      destruct (accepted_store _ _ _ _ _ _ Hrun H200)
        as (row & hh & paidz & z & _ & Hz & _ & Hrow & Hdb).
      exists row. split; [exact Hdb | ].
      split; [rewrite Hdb; apply inserted_store_after | ].
      rewrite Hrow. cbn [score].
      rewrite Hzero in Hz. apply sql_bigint_of_Z in Hz. exact Hz.
  - intros tx opsPage paidz hh Hreach Hone Hpaid Hh Hfits.
    exact (verified_submission_accepted v w db req tx opsPage paidz hh 0
             Hreach Hone Hpaid Hh Hfits Hzero).
Qed.

End NonFiniteScore.

(** ** Replay *)

Lemma select_tx_hash_found db row :
  In row (rows db) ->
  (0 <? List.length (select_tx_hash db (Some (tx_hash row))))%nat = true.
Proof.
  intros Hin. unfold select_tx_hash.
  assert (Hf : In row (filter (fun r => String.eqb (tx_hash r) (tx_hash row))
                         (rows db))).
  { apply filter_In. split; [assumption | apply String.eqb_refl]. }
  destruct (filter _ (rows db)) as [ | x l]; [destruct Hf | reflexivity].
Qed.

Section Replay.
Context {rt : JsRuntime}.

(** The submit handler on a table that holds a row for the [txHash]. *)
Lemma run_when_row_present v w db req row :
  In row (rows db) ->
  Some (tx_hash row) = prepareValue (body_txHash req) ->
  run w db (submitScore_of v req) =
  (db, Ok (if negb (truthy (body_txHash req))
              || negb (truthy (body_address req))
              || negb (String.eqb (typeof (body_score req)) "number")
           then send 400 "txHash, address, score required"
           else if negb (printable (body_address req))
           then send 500 "Cannot convert object to primitive value"
           else if negb (address_re
                           (toUpperCase (String_ (body_address req))))
           then send 400 "bad address"
           else send 409 "tx already used")).
Proof.
  intros Hin Hhash. rewrite submitScore_of_handler, run_submitScore_handler.
  rewrite <- Hhash, (select_tx_hash_found _ _ Hin).
  destruct (_ || _); [reflexivity | ].
  destruct (negb (printable _)); [reflexivity | ].
  destruct (negb (address_re _)); reflexivity.
Qed.

(** C3 (as amended).  Let a first submission be accepted and let a
    second one carry the same [txHash], at a time when the row of the
    first is still in the table (in variant 2 it always is; variant 1
    may have trimmed it away).  The second is answered, in this order of
    precedence: with the missing-fields rejection when its address is
    falsy or its score is not a number; with a 500 carrying the
    TypeError's message when its address is an object that
    [String(address)] cannot convert; with the bad-address rejection
    when its address is malformed; and otherwise with 409 "tx already
    used".  In each case the database is left as it was. *)
Theorem second_submission_same_txHash v w1 w2 db req1 req2 db1 r1 :
  run w1 db (submitScore_of v req1) = (db1, Ok r1) ->
  status r1 = 200 ->
  body_txHash req2 = body_txHash req1 ->
  (v = Autoprune ->
   exists row, In row (rows db1) /\
               Some (tx_hash row) = prepareValue (body_txHash req1)) ->
  run w2 db1 (submitScore_of v req2) =
  (db1, Ok (if negb (truthy (body_txHash req2))
               || negb (truthy (body_address req2))
               || negb (String.eqb (typeof (body_score req2)) "number")
            then send 400 "txHash, address, score required"
            else if negb (printable (body_address req2))
            then send 500 "Cannot convert object to primitive value"
            else if negb (address_re
                            (toUpperCase (String_ (body_address req2))))
            then send 400 "bad address"
            else send 409 "tx already used")).
Proof.
  intros Hrun H200 Hsame Hsurvived.
  assert (Hrow : exists row, In row (rows db1) /\
                   Some (tx_hash row) = prepareValue (body_txHash req1)).
  { destruct v; [apply Hsurvived; reflexivity | ].
    destruct (accepted_store _ _ _ _ _ _ Hrun H200)
      as (row & hh & paidz & z & Hh & _ & _ & Hrow & Hdb).
    exists row. subst db1. split; [left; reflexivity | ].
    subst row. cbn. congruence. }
  destruct Hrow as (row & Hin & Hhash).
  apply (run_when_row_present v w2 db1 req2 row Hin).
  rewrite Hsame. exact Hhash.
Qed.

End Replay.

(** ** ORDER BY and LIMIT *)

Section OrderByFacts.
Variable leb : Row -> Row -> bool.
Hypothesis leb_total : forall a b, leb a b = true \/ leb b a = true.
Hypothesis leb_trans :
  forall a b c, leb a b = true -> leb b c = true -> leb a c = true.

Local Abbreviation before := (fun a b : Row => leb a b = true).

Lemma place_perm x l : Permutation (x :: l) (place leb x l).
Proof.
  induction l as [ | y l IH]; simpl.
  - apply Permutation_refl.
  - destruct (leb x y).
    + apply Permutation_refl.
    + eapply perm_trans; [apply perm_swap | apply perm_skip, IH].
Qed.

Lemma order_by_perm l : Permutation l (order_by leb l).
Proof.
  induction l as [ | x l IH]; simpl.
  - apply perm_nil.
  - eapply perm_trans; [apply perm_skip, IH | apply place_perm].
Qed.

Lemma order_by_length l : List.length (order_by leb l) = List.length l.
Proof. symmetry. apply Permutation_length, order_by_perm. Qed.

Lemma order_by_In x l : In x (order_by leb l) <-> In x l.
Proof.
  split; apply Permutation_in;
    [apply Permutation_sym | ]; apply order_by_perm.
Qed.

Lemma place_sorted x l :
  StronglySorted before l -> StronglySorted before (place leb x l).
Proof.
  induction 1 as [ | y l Hs IH Hy]; simpl.
  - constructor; constructor.
  - destruct (leb x y) eqn:E.
    + constructor; [constructor; assumption | ].
      constructor; [exact E | ].
      eapply Forall_impl; [ | exact Hy].
      intros z Hz. exact (leb_trans _ _ _ E Hz).
    + constructor; [exact IH | ].
      assert (Hyx : before y x)
        by (destruct (leb_total x y) as [H | H]; [congruence | exact H]).
      rewrite Forall_forall in *. intros z Hz.
      apply (Permutation_in _ (Permutation_sym (place_perm x l))) in Hz.
      destruct Hz as [<- | Hz]; auto.
Qed.

Lemma order_by_sorted l : StronglySorted before (order_by leb l).
Proof.
  induction l as [ | x l IH]; simpl; [constructor | apply place_sorted, IH].
Qed.

Lemma place_front x l :
  Forall (before x) l -> place leb x l = x :: l.
Proof.
  intros H. destruct l as [ | y l]; [reflexivity | ].
  simpl. inversion H as [ | ? ? Hy _]; subst. cbv beta in Hy.
  rewrite Hy. reflexivity.
Qed.

Lemma filter_place (p : Row -> bool) x l :
  StronglySorted before l ->
  filter p (place leb x l) =
  if p x then place leb x (filter p l) else filter p l.
Proof.
  induction 1 as [ | y l Hs IH Hy]; simpl.
  - destruct (p x); reflexivity.
  - destruct (leb x y) eqn:E.
    + simpl. destruct (p x) eqn:Px; [ | reflexivity].
      symmetry. apply (place_front x (filter p (y :: l))).
      assert (Hall : Forall (before x) (y :: l)).
      { constructor; [exact E | ].
        eapply Forall_impl; [ | exact Hy].
        intros z Hz. exact (leb_trans _ _ _ E Hz). }
      rewrite Forall_forall in *. intros z Hz.
      apply filter_In in Hz. apply Hall, Hz.
    + simpl. rewrite IH.
      destruct (p y), (p x); simpl; try rewrite E; reflexivity.
Qed.

Lemma order_by_filter (p : Row -> bool) l :
  order_by leb (filter p l) = filter p (order_by leb l).
Proof.
  induction l as [ | x l IH]; simpl; [reflexivity | ].
  rewrite filter_place by apply order_by_sorted.
  destruct (p x); simpl; rewrite IH; reflexivity.
Qed.

Lemma firstn_cons_firstn (k : nat) (y : Row) l :
  firstn k (y :: firstn k l) = firstn k (y :: l).
Proof.
  destruct k as [ | k]; [reflexivity | ].
  cbn [firstn]. f_equal.
  change (firstn k (firstn (S k) l) = firstn k l).
  rewrite firstn_firstn. f_equal. lia.
Qed.

Lemma firstn_place (k : nat) x l :
  firstn k (place leb x (firstn k l)) = firstn k (place leb x l).
Proof.
  revert l. induction k as [ | k IH]; intros l; [reflexivity | ].
  destruct l as [ | y l]; [reflexivity | ].
  cbn [firstn place]. destruct (leb x y).
  - cbn [firstn]. f_equal. apply firstn_cons_firstn.
  - cbn [firstn]. f_equal. apply IH.
Qed.

End OrderByFacts.

Lemma rank_leb_spec (a b : Row) :
  rank_leb a b = true <->
  score b < score a \/
  (score a = score b /\
   (created_at a < created_at b \/
    (created_at a = created_at b /\ id a <= id b))).
Proof.
  unfold rank_leb.
  rewrite orb_true_iff, andb_true_iff, orb_true_iff, andb_true_iff.
  rewrite !Z.ltb_lt, !Z.eqb_eq, Z.leb_le. tauto.
Qed.

Lemma rank_leb_total (a b : Row) : rank_leb a b = true \/ rank_leb b a = true.
Proof. rewrite !rank_leb_spec. lia. Qed.

Lemma rank_leb_trans (a b c : Row) :
  rank_leb a b = true -> rank_leb b c = true -> rank_leb a c = true.
Proof. rewrite !rank_leb_spec. lia. Qed.




(** ** The trimming DELETE *)

Lemma existsb_eqb_In (z : Z) (l : list Z) :
  existsb (Z.eqb z) l = true <-> In z l.
Proof.
  rewrite existsb_exists. split.
  - intros (y & Hy & E). apply Z.eqb_eq in E. congruence.
  - intros H. exists z. split; [assumption | apply Z.eqb_refl].
Qed.

(** Keeping the rows whose [id] is among those of a prefix keeps that
    prefix, when no two rows share an [id]. *)
Lemma filter_ids_prefix (front back : list Row) :
  NoDup (map id (front ++ back)) ->
  filter (fun r => existsb (Z.eqb (id r)) (map id front)) (front ++ back)
  = front.
Proof.
  intros Hnd. rewrite filter_app.
  assert (Hf : filter (fun r => existsb (Z.eqb (id r)) (map id front)) front
               = front).
  { apply forallb_filter_id. apply forallb_forall. intros r Hr.
    apply existsb_eqb_In, in_map, Hr. }
  assert (Hb : filter (fun r => existsb (Z.eqb (id r)) (map id front)) back
               = []).
  { rewrite map_app in Hnd.
    induction back as [ | b back IH]; [reflexivity | ].
    simpl. destruct (existsb _ (map id front)) eqn:E.
    - apply existsb_eqb_In in E. exfalso.
      apply NoDup_remove_2 in Hnd. apply Hnd.
      apply in_or_app. left. exact E.
    - apply IH. apply NoDup_remove_1 in Hnd. exact Hnd. }
  rewrite Hf, Hb. apply app_nil_r.
Qed.

Lemma delete_not_top100_sorted db :
  NoDup (map id (rows db)) ->
  order_by rank_leb (rows (delete_not_top100 db))
  = firstn 100 (order_by rank_leb (rows db)).
Proof.
  intros Hnd. unfold delete_not_top100. cbn [rows].
  rewrite (order_by_filter rank_leb rank_leb_total rank_leb_trans).
  set (L := order_by rank_leb (rows db)).
  assert (HL : NoDup (map id (firstn 100 L ++ skipn 100 L))).
  { rewrite firstn_skipn.
    eapply Permutation_NoDup; [ | exact Hnd].
    apply Permutation_map, order_by_perm. }
  apply filter_ids_prefix in HL. rewrite firstn_skipn in HL. exact HL.
Qed.

(** A table of at most 100 rows loses nothing. *)
Lemma delete_not_top100_small db :
  (List.length (rows db) <= 100)%nat ->
  rows (delete_not_top100 db) = rows db.
Proof.
  intros Hlen. unfold delete_not_top100. cbn [rows].
  rewrite firstn_all2 by (rewrite order_by_length; exact Hlen).
  apply forallb_filter_id. apply forallb_forall. intros r Hr.
  apply existsb_eqb_In, in_map, order_by_In, Hr.
Qed.

(** ** Capacity *)

Lemma In_firstn (A : Type) (n : nat) (x : A) (l : list A) :
  In x (firstn n l) -> In x l.
Proof.
  intros H. rewrite <- (firstn_skipn n l). apply in_or_app. left. exact H.
Qed.

Section Capacity.
Context {rt : JsRuntime}.

(** What one submission does to the database: nothing to the table
    (rejections and failures), or one INSERT followed by what the
    variant does next. *)
Lemma run_store_cases v w db req db' r :
  run w db (submitScore_of v req) = (db', Ok r) ->
  (rows db' = rows db /\ inserted db' = inserted db /\
   next_id db <= next_id db')
  \/
  (exists row,
     id row = next_id db /\
     db' = store_after v
             (mkStore (row :: rows db) (next_id db + 1) (score_check db)
                      (row :: inserted db))).
Proof.
  rewrite submitScore_of_handler, run_submitScore_handler.
  assert (Hsame : forall x, (db, Ok x) = (db', Ok r) ->
            rows db' = rows db /\ inserted db' = inserted db /\
            next_id db <= next_id db').
  { intros x E. injection E as <- _. repeat split. lia. }
  destruct (_ || _); [left; eauto | ].
  destruct (negb (printable (body_address req))); [left; eauto | ].
  destruct (negb (address_re _)); [left; eauto | ].
  destruct (_ <? _)%nat; [left; eauto | ].
  rewrite run_verifyAndStore.
  destruct (negb (printable (body_txHash req))); [left; eauto | ].
  destruct (getJson_outcome w (transaction_url _)) as [tx | e];
    [ | destruct (run_server_error w db e) as [? ->]; left; eauto].
  destruct (negb (strict_eq_true _)); [left; eauto | ].
  destruct (truthy _ && _); [left; eauto | ].
  destruct (negb (within_minutes _ _ _)); [left; eauto | ].
  destruct (getJson_outcome w (operations_url _)) as [opsPage | e];
    [ | destruct (run_server_error w db e) as [? ->]; left; eauto].
  destruct (negb (_ =? _)%nat); [left; eauto | ].
  destruct (insert_score _ _ _ _ _ _ _ _) as [db1 [[] | e]] eqn:Hins.
  - destruct (insert_score_ok _ _ _ _ _ _ _ _ _ Hins)
      as (z & hh & paidz & _ & _ & _ & _ & ->).
    destruct (run_respond_of v w
                (mkStore
                   (mkRow (next_id db)
                      (toUpperCase (String_ (body_address req))) z hh paidz
                      (NOW w) (or_null (req_ip req))
                      (or_null (user_agent req)) :: rows db)
                   (next_id db + 1) (score_check db)
                   (mkRow (next_id db)
                      (toUpperCase (String_ (body_address req))) z hh paidz
                      (NOW w) (or_null (req_ip req))
                      (or_null (user_agent req)) :: inserted db)))
      as [top ->].
    intros E. injection E as <- _. right. eexists.
    split; [ | reflexivity]. reflexivity.
  - destruct (insert_score_err _ _ _ _ _ _ _ _ _ _ Hins)
      as (Hr & Hi & _ & Hn).
    destruct (run_server_error w db1 e) as [? ->].
    intros E. injection E as <- _. left. auto.
Qed.

Lemma invariant_rows_inserted db r :
  autoprune_invariant db -> In r (rows db) -> In r (inserted db).
Proof.
  intros (Hsorted & _ & _) Hin.
  apply (proj2 (order_by_In rank_leb _ _)) in Hin. rewrite Hsorted in Hin.
  apply In_firstn in Hin.
  apply (proj1 (order_by_In rank_leb _ _)) in Hin. exact Hin.
Qed.

Lemma invariant_rows_NoDup db :
  autoprune_invariant db -> NoDup (map id (rows db)).
Proof.
  intros (Hsorted & Hnd & _).
  apply (Permutation_NoDup
           (l := map id (firstn 100 (order_by rank_leb (inserted db))))).
  - rewrite <- Hsorted. apply Permutation_map, Permutation_sym, order_by_perm.
  - rewrite <- firstn_map.
    assert (H : NoDup (map id (order_by rank_leb (inserted db)))).
    { eapply Permutation_NoDup; [ | exact Hnd].
      apply Permutation_map, order_by_perm. }
    rewrite <- (firstn_skipn 100 (map id (order_by rank_leb (inserted db))))
      in H.
    apply NoDup_app_remove_r in H. exact H.
Qed.

Lemma invariant_step w db req db' r :
  autoprune_invariant db ->
  run w db (Variant1.submitScore req) = (db', Ok r) ->
  autoprune_invariant db'.
Proof.
  intros Hinv Hrun.
  destruct (run_store_cases Autoprune w db req db' r Hrun)
    as [(Hr & Hi & Hn) | (row & Hid & ->)].
  - destruct Hinv as (Hsorted & Hnd & Hlt).
    unfold autoprune_invariant. rewrite Hr, Hi.
    repeat split; auto. intros x Hx. specialize (Hlt x Hx). lia.
  - assert (Hfresh : ~ In (id row) (map id (inserted db))).
    { destruct Hinv as (_ & _ & Hlt). intros Hin.
      apply in_map_iff in Hin. destruct Hin as (x & Hx & Hin).
      specialize (Hlt x Hin). lia. }
    assert (Hfresh_rows : ~ In (id row) (map id (rows db))).
    { intros Hin. apply Hfresh.
      apply in_map_iff in Hin. destruct Hin as (x & Hx & Hin).
      apply in_map_iff. exists x. split; [exact Hx | ].
      apply invariant_rows_inserted; assumption. }
    pose proof (invariant_rows_NoDup db Hinv) as Hnd_rows.
    destruct Hinv as (Hsorted & Hnd & Hlt).
    cbn [store_after]. unfold autoprune_invariant. repeat split.
    + rewrite delete_not_top100_sorted
        by (cbn [rows map]; constructor; assumption).
      cbn [rows inserted delete_not_top100 order_by fold_right].
      fold (order_by rank_leb (rows db)).
      fold (order_by rank_leb (inserted db)).
      rewrite Hsorted. apply firstn_place.
    + cbn. constructor; assumption.
    + cbn. intros x [<- | Hx]; [lia | specialize (Hlt x Hx); lia].
Qed.

Lemma serve_cons (handler : Request -> Proc Response) db w req rest :
  fst (serve handler db ((w, req) :: rest)) =
  fst (serve handler (fst (run w db (handler req))) rest).
Proof.
  cbn [serve]. destruct (run w db (handler req)) as [db1 r]. cbn [fst].
  destruct (serve handler db1 rest) as [db2 rs]. reflexivity.
Qed.

Lemma invariant_serve reqs db :
  autoprune_invariant db ->
  autoprune_invariant (fst (serve Variant1.submitScore db reqs)).
Proof.
  revert db. induction reqs as [ | [w req] rest IH]; intros db Hinv.
  - exact Hinv.
  - rewrite serve_cons. apply IH.
    destruct (submitScore_responds Autoprune w db req) as (db' & r & Hrun).
    cbn [submitScore_of] in Hrun. rewrite Hrun. cbn [fst].
    eapply invariant_step; eassumption.
Qed.

Lemma noprune_serve reqs db :
  rows db = inserted db ->
  let db' := fst (serve Variant2.submitScore db reqs) in
  rows db' = inserted db'.
Proof.
  revert db. induction reqs as [ | [w req] rest IH]; intros db Heq.
  - exact Heq.
  - cbv zeta. rewrite serve_cons. apply IH.
    destruct (submitScore_responds NoPrune w db req) as (db' & r & Hrun).
    cbn [submitScore_of] in Hrun. rewrite Hrun. cbn [fst].
    destruct (run_store_cases NoPrune w db req db' r Hrun)
      as [(Hr & Hi & _) | (row & _ & ->)].
    + congruence.
    + cbn. congruence.
Qed.

(** C2 (as amended).  Variant 1: after any sequence of submissions,
    served one after the other on a fresh database, the table holds at
    most 100 rows, and they are exactly the 100 highest-ranked (by
    score descending, then [created_at] ascending, then [id] ascending)
    of all rows the accepted submissions inserted.  Variant 2 never
    deletes: its table holds every row ever inserted. *)
Theorem autoprune_keeps_top100 (reqs : list (World * Request)) :
  let db := fst (serve Variant1.submitScore ensureSchema_v1 reqs) in
  let db2 := fst (serve Variant2.submitScore ensureSchema_v2 reqs) in
  (List.length (rows db) <= 100)%nat /\
  order_by rank_leb (rows db)
  = firstn 100 (order_by rank_leb (inserted db)) /\
  Permutation (rows db) (firstn 100 (order_by rank_leb (inserted db))) /\
  rows db2 = inserted db2.
Proof.
  intros db db2.
  assert (Hinv : autoprune_invariant db).
  { apply invariant_serve. repeat split; [constructor | intros r []]. }
  destruct Hinv as (Hsorted & _ & _).
  repeat split.
  - rewrite <- (order_by_length rank_leb), Hsorted. apply firstn_le_length.
  - exact Hsorted.
  - rewrite <- Hsorted. apply order_by_perm.
  - apply noprune_serve. reflexivity.
Qed.

End Capacity.

(** ** The leaderboard query *)

Lemma Qle_bool_false (p q : Q) : Qle_bool p q = false -> (q < p)%Q.
Proof.
  intros H. apply Qnot_le_lt. intros Hle.
  apply Qle_bool_iff in Hle. congruence.
Qed.

Lemma sql_bigint_integral (q : Q) (n : Z) :
  (q == inject_Z n)%Q -> 0 <= n <= 100 -> sql_bigint (Fin q) = Some n.
Proof.
  intros Hq Hn. unfold sql_bigint.
  assert (Hfloor : Qfloor q = n) by (rewrite Hq; apply Qfloor_Z).
  rewrite Hfloor.
  replace (Qeq_bool q (inject_Z n)) with true
    by (symmetry; apply Qeq_bool_iff; exact Hq).
  replace (- 9223372036854775808 <=? n) with true
    by (symmetry; apply Z.leb_le; lia).
  replace (n <=? 9223372036854775807) with true
    by (symmetry; apply Z.leb_le; lia).
  reflexivity.
Qed.

Section Leaderboard.
Context {rt : JsRuntime}.

Lemma leaderboard_limit_cases (limit : JsValue) :
  leaderboard_limit limit =
  match Number limit with
  | NaN => of_Z 50
  | PosInf => of_Z 100
  | NegInf => of_Z 1
  | Fin q =>
      if Qeq_bool q 0 then of_Z 50
      else if Qle_bool q 1 then of_Z 1
      else if Qle_bool q 100 then Fin q
      else of_Z 100
  end.
Proof.
  unfold leaderboard_limit.
  destruct (Number limit) as [ | | | q]; try reflexivity.
  cbn [truthy]. destruct (Qeq_bool q 0); [reflexivity | ].
  cbn [negb].
  cbv beta iota delta [Math_min Math_max of_Z js_lt].
  change (Qle_bool q (inject_Z 100)) with (Qle_bool q 100).
  destruct (Qle_bool q 100) eqn:E100; cbn [negb].
  - change (Qle_bool q (inject_Z 1)) with (Qle_bool q 1).
    destruct (Qle_bool q 1); reflexivity.
  - destruct (Qle_bool q 1) eqn:E1; [ | reflexivity].
    apply Qle_bool_iff in E1. apply Qle_bool_false in E100. lra.
Qed.

Lemma leaderboard_limit_range (limit : JsValue) :
  exists q, leaderboard_limit limit = Fin q /\ (1 <= q)%Q /\ (q <= 100)%Q.
Proof.
  rewrite leaderboard_limit_cases.
  destruct (Number limit) as [ | | | q];
    try (eexists; split; [reflexivity | split; unfold inject_Z; lra]).
  destruct (Qeq_bool q 0);
    [eexists; split; [reflexivity | split; unfold inject_Z; lra] | ].
  destruct (Qle_bool q 1) eqn:E1;
    [eexists; split; [reflexivity | split; unfold inject_Z; lra] | ].
  destruct (Qle_bool q 100) eqn:E100;
    [ | eexists; split; [reflexivity | split; unfold inject_Z; lra]].
  exists q. split; [reflexivity | ].
  apply Qle_bool_false in E1. apply Qle_bool_iff in E100. split; lra.
Qed.

Lemma run_leaderboard_of v w db limit q n :
  leaderboard_limit limit = Fin q ->
  (q == inject_Z n)%Q ->
  run w db (leaderboard_of v limit) =
  (db, Ok (mkResponse 200
             (Top (map entry_of
                     (firstn (Z.to_nat n)
                        (order_by (ranking_of v) (rows db))))))).
Proof.
  intros HN Hq.
  assert (Hn : 0 <= n <= 100).
  { destruct (leaderboard_limit_range limit) as (q' & E & H1 & H100).
    rewrite HN in E. injection E as <-. rewrite Hq in H1, H100.
    unfold Qle in H1, H100. cbn in H1, H100. lia. }
  pose proof (sql_bigint_integral q n Hq Hn) as Hsql.
  assert (Hneg : (n <? 0) = false) by (apply Z.ltb_ge; lia).
  destruct v; cbn [leaderboard_of ranking_of].
  - unfold Variant1.leaderboard, Variant1.topN. cbv zeta.
    rewrite run_bind, run_await, HN. cbn [perform]. unfold select_top.
    rewrite Hsql, Hneg. reflexivity.
  - unfold Variant2.leaderboard. cbv zeta.
    rewrite run_bind, run_await, HN. cbn [perform]. unfold select_top2.
    rewrite Hsql, Hneg. reflexivity.
Qed.


End Leaderboard.

(** ** A submission that loses the race for its [txHash] *)

Section LostRace.
Context {rt : JsRuntime}.

(** When the request checks pass, the first step of the handler is the
    replay pre-check, and what remains is the second part of the body. *)
Lemma step_past_precheck v w db req :
  passes_request_checks db req ->
  step w db (submitScore_of v req) =
  (db, tryCatch (verifyAndStore (respond_of v) req
                   (toUpperCase (String_ (body_address req))))
         server_error).
Proof.
  intros (Ht & Ha & Hs & Hpa & Hre & Hsel & _).
  rewrite submitScore_of_handler. unfold submitScore_handler. cbv zeta.
  rewrite Ht, Ha, Hs, (ToString_printable _ Hpa).
  change (String.eqb "number" "number") with true.
  cbn [negb orb of_result bind]. rewrite Hre.
  cbn [negb]. unfold txAlreadyUsed.
  cbn [bind await tryCatch step perform].
  rewrite Hsel. reflexivity.
Qed.

(** If, by the time of the INSERT, another submission has written a row
    for the same [txHash], a submission that passes verification is
    answered with status 500 and the text of the unique-constraint
    error; the sequence has advanced and nothing else has changed. *)
Lemma insert_conflict_is_server_error v w db req addr tx opsPage row paidz :
  In row (rows db) ->
  Some (tx_hash row) = prepareValue (body_txHash req) ->
  printable (body_txHash req) = true ->
  getJson_outcome w (transaction_url (body_txHash req)) = Ok tx ->
  successful tx = JBool true ->
  truthy (memo_type tx) && negb (strict_eq_str (memo_type tx) "none") = false ->
  within_minutes (Date_now w) (tx_created_at tx) 30 = true ->
  getJson_outcome w (operations_url (body_txHash req)) = Ok opsPage ->
  List.length (filter (validPay addr) (embedded_records opsPage)) = 1%nat ->
  timestamptz_in (tx_created_at tx) = Some paidz ->
  run w db (tryCatch (verifyAndStore (respond_of v) req addr) server_error) =
  (mkStore (rows db) (next_id db + 1) (score_check db) (inserted db),
   Ok (send 500 (message unique_violation))).
Proof.
  intros Hin Hhash Hph Htx Hok Hmemo Hrecent Hops Hcount Hpaid.
  rewrite run_verifyAndStore, Hph, Htx, Hok, Hmemo, Hrecent, Hops, Hcount.
  cbn [strict_eq_true negb Nat.eqb].
  unfold insert_score.
  destruct (clampScore_range (body_score req)) as (z & -> & Hz).
  rewrite (sql_bigint_small z Hz), Hpaid, <- Hhash.
  replace ((0 <=? z) && (z <=? 1000000000)) with true
    by (symmetry; apply andb_true_intro; split; apply Z.leb_le; lia).
  cbn [negb]. rewrite andb_false_r.
  replace (existsb (fun r => String.eqb (tx_hash r) (tx_hash row)) (rows db))
    with true.
  - reflexivity.
  - symmetry. apply existsb_exists. exists row.
    split; [exact Hin | apply String.eqb_refl].
Qed.

End LostRace.

(** ** Scenarios *)

Section Scenarios.
#[local] Existing Instance demo_runtime.

(** C1.  Two submissions of the same [txHash] race past the replay
    pre-check.  The INSERT of the second fails on the unique index of
    [tx_hash], and the second submission is answered with status 500 and
    the database's error text, not with 409 "tx already used".  This is
    so in both variants. *)
Theorem duplicate_insert_answers_500 :
  let w := demo_world (JStr "none") in
  let first := demo_request "T1" (JStr payer_lower) (JNum (of_Z 7)) in
  let second := demo_request "T1" (JStr payer_lower) (JNum (of_Z 9)) in
  (exists db top,
     race w race_schedule ensureSchema_v1
          (Variant1.submitScore first) (Variant1.submitScore second) =
     (db, Ret (mkResponse 200 (OkTop10 top)),
          Ret (send 500 (message unique_violation))))
  /\
  (exists db top,
     race w race_schedule ensureSchema_v2
          (Variant2.submitScore first) (Variant2.submitScore second) =
     (db, Ret (mkResponse 200 (OkTop10 top)),
          Ret (send 500 (message unique_violation)))).
Proof.
  split; eexists _, _; vm_compute; reflexivity.
Qed.


(** The same [txHash] can be accepted twice by variant 1 once its row
    has been trimmed away: on a full table of better scores a
    submission with score 1 is accepted and trimmed at once, and the
    same submission is then accepted again. *)
Example trimmed_txHash_is_accepted_again :
  let w := demo_world (JStr "none") in
  let req := demo_request "T1" (JStr payer_lower) (JNum (of_Z 1)) in
  let first := run w full_table (Variant1.submitScore req) in
  let second := run w (fst first) (Variant1.submitScore req) in
  List.length (rows full_table) = 100%nat /\
  answered first = Some 200 /\
  answered second = Some 200.
Proof. vm_compute. repeat split. Qed.

(** Counterexample to C2 as stated: in variant 2, 101 accepted
    submissions leave 101 rows in the table. *)
Lemma noprune_table_exceeds_100 :
  let out := serve Variant2.submitScore ensureSchema_v2
               (honest_submissions 101) in
  forallb (fun r => match r with
                    | Ok x => status x =? 200
                    | Err _ => false
                    end) (snd out) = true /\
  List.length (rows (fst out)) = 101%nat /\
  ~ (List.length (rows (fst out)) <= 100)%nat.
Proof. vm_compute. repeat split. intros H. repeat apply le_S_n in H. inversion H. Qed.

(** Counterexample to C3 as stated: after an accepted submission of
    [T1], a second submission of [T1] with the address ["x"] is answered
    400 "bad address", not 409. *)
Lemma second_submission_bad_address_400 :
  let w := demo_world (JStr "none") in
  let first := run w ensureSchema_v1
                 (Variant1.submitScore
                    (demo_request "T1" (JStr payer_lower) (JNum (of_Z 5)))) in
  answered first = Some 200 /\
  run w (fst first)
      (Variant1.submitScore (demo_request "T1" (JStr "x") (JNum (of_Z 5))))
  = (fst first, Ok (send 400 "bad address")) /\
  send 400 "bad address" <> send 409 "tx already used".
Proof. vm_compute. repeat split. discriminate. Qed.

(** The body [{"txHash": "T1", "address": {"toString": 1}, "score": 5}]:
    [String(address)] throws, and the request is answered 500 with the
    TypeError's message, also when [T1] is already in the table. *)
Example unprintable_address_is_answered_500 :
  let w := demo_world (JStr "none") in
  let object := Unprintable ("{" ++ dquote ++ "toString" ++ dquote ++ ":1}") in
  let first := run w ensureSchema_v2
                 (Variant2.submitScore
                    (demo_request "T1" (JStr payer_lower) (JNum (of_Z 5)))) in
  let second := mkRequest (JStr "T1") object (JNum (of_Z 5)) None None in
  answered first = Some 200 /\
  run w (fst first) (Variant2.submitScore second)
  = (fst first, Ok (send 500 "Cannot convert object to primitive value")).
Proof. vm_compute. split; reflexivity. Qed.

(** The same object as [txHash]: the replay pre-check runs (the driver
    sends the object's JSON text), then the template literal of the
    ledger URL throws; the answer is a 500 and nothing is fetched or
    written. *)
Example unprintable_txHash_is_answered_500 :
  let w := demo_world (JStr "none") in
  let object := Unprintable ("{" ++ dquote ++ "toString" ++ dquote ++ ":1}") in
  let req := mkRequest object (JStr payer) (JNum (of_Z 5)) None None in
  run w ensureSchema_v1 (Variant1.submitScore req)
  = (ensureSchema_v1,
     Ok (send 500 "Cannot convert object to primitive value")).
Proof. vm_compute. reflexivity. Qed.

(** Counterexample to C5 as stated: a transaction whose [memo_type] is
    the empty string (neither absent nor ["none"]) passes the memo check
    and the submission is accepted. *)
Lemma empty_memo_type_is_accepted :
  let w := demo_world (JStr "") in
  let req := demo_request "T1" (JStr payer_lower) (JNum (of_Z 5)) in
  getJson_outcome w (transaction_url (body_txHash req)) = Ok (tx_doc (JStr ""))
  /\ memo_type (tx_doc (JStr "")) = JStr ""
  /\ answered (run w ensureSchema_v1 (Variant1.submitScore req)) = Some 200
  /\ answered (run w ensureSchema_v2 (Variant2.submitScore req)) = Some 200.
Proof. vm_compute. repeat split. Qed.


(** *** The theorems at concrete inputs *)

Lemma second_submission_same_txHash_witness :
  let w := demo_world (JStr "none") in
  let req1 := demo_request "T1" (JStr payer_lower) (JNum (of_Z 5)) in
  let req2 := demo_request "T1" (JStr payer) (JNum (of_Z 9)) in
  let db1 := fst (run w ensureSchema_v1 (submitScore_of Autoprune req1)) in
  run w db1 (submitScore_of Autoprune req2)
  = (db1, Ok (send 409 "tx already used")).
Proof.
  intros w req1 req2 db1.
  eapply (second_submission_same_txHash Autoprune w w ensureSchema_v1
            req1 req2 db1).
  - vm_compute. reflexivity.
  - reflexivity.
  - reflexivity.
  - intros _. vm_compute. eexists. split; [left; reflexivity | reflexivity].
Defined.

Lemma exactly_one_valid_payment_witness :
  let w := demo_world (JStr "none") in
  let req := demo_request "T1" (JStr payer_lower) (JNum (of_Z 5)) in
  exists db' r,
    run w ensureSchema_v1 (submitScore_of Autoprune req) = (db', Ok r) /\
    r <> send 400 "no valid KALE payment op to treasury from address".
Proof.
  intros w req.
  assert (H : reaches_payment_check w ensureSchema_v1 req
                (tx_doc (JStr "none")) (ops_doc [kale_payment payer])).
  { unfold reaches_payment_check, reaches_memo_check, passes_request_checks.
    repeat split; vm_compute; reflexivity. }
  apply (proj1 (proj2 (exactly_one_valid_payment Autoprune w ensureSchema_v1
                         req _ _ H))).
  reflexivity.
Defined.

Lemma memo_check_by_truthiness_witness :
  let w := demo_world (JStr "text") in
  let req := demo_request "T1" (JStr payer_lower) (JNum (of_Z 5)) in
  run w ensureSchema_v1 (submitScore_of Autoprune req)
  = (ensureSchema_v1, Ok (send 400 "memos not allowed")).
Proof.
  intros w req.
  assert (H : reaches_memo_check w ensureSchema_v1 req (tx_doc (JStr "text"))).
  { unfold reaches_memo_check, passes_request_checks.
    repeat split; vm_compute; reflexivity. }
  apply (proj1 (memo_check_by_truthiness Autoprune w ensureSchema_v1 req _ H)).
  split; [reflexivity | discriminate].
Defined.

Lemma stored_score_is_clamped_witness :
  let w := demo_world (JStr "none") in
  let req := demo_request "T1" (JStr payer_lower) (JNum (Fin (429 # 10))) in
  let db' := fst (run w ensureSchema_v1 (submitScore_of Autoprune req)) in
  exists row,
    db' = store_after Autoprune
            (mkStore (row :: rows ensureSchema_v1)
                     (next_id ensureSchema_v1 + 1)
                     (score_check ensureSchema_v1)
                     (row :: inserted ensureSchema_v1)) /\
    (Autoprune = NoPrune -> rows db' = row :: rows ensureSchema_v1) /\
    inserted db' = row :: inserted ensureSchema_v1 /\
    of_Z (score row) = clampScore (body_score req) /\
    Some (tx_hash row) = prepareValue (body_txHash req) /\
    address row = toUpperCase (String_ (body_address req)).
Proof.
  intros w req db'.
  eapply (stored_score_is_clamped Autoprune w ensureSchema_v1 req db').
  - vm_compute. reflexivity.
  - reflexivity.
Defined.

Lemma non_finite_score_stored_as_zero_witness :
  let w := demo_world (JStr "none") in
  let req := demo_request "T1" (JStr payer_lower) (JNum NaN) in
  exists top,
    let row := mkRow 1 payer 0 "T1" 1704067200000 1704067320000
                     (Some "203.0.113.7") (Some "curl/8.0") in
    run w ensureSchema_v1 (submitScore_of Autoprune req) =
    (store_after Autoprune (mkStore [row] 2 true [row]),
     Ok (mkResponse 200 (OkTop10 top))).
Proof.
  intros w req.
  refine (proj2 (proj2 (non_finite_score_stored_as_zero Autoprune w
                          ensureSchema_v1 req NaN _ _ _ _))
            (tx_doc (JStr "none")) (ops_doc [kale_payment payer])
            1704067200000 "T1" _ _ _ _ _); try reflexivity.
  unfold reaches_payment_check, reaches_memo_check, passes_request_checks.
  repeat split; vm_compute; reflexivity.
Defined.

End Scenarios.

(** * Further properties *)

(** ** Score normalisation, again *)

Section ClampScoreMore.
Context {rt : JsRuntime}.

(** X1.  [clampScore] is idempotent, and it leaves every integer
    between 0 and 1,000,000,000 as it is. *)
Theorem clampScore_idempotent (raw : JsValue) :
  clampScore (JNum (clampScore raw)) = clampScore raw /\
  forall z, 0 <= z <= 1000000000 -> clampScore (JNum (of_Z z)) = of_Z z.
Proof.
  assert (Hfix : forall z, 0 <= z <= 1000000000 ->
                           clampScore (JNum (of_Z z)) = of_Z z).
  { intros z Hz. rewrite clampScore_cases. cbn [Number of_Z].
    rewrite Qfloor_Z.
    replace (z <? 0) with false by (symmetry; apply Z.ltb_ge; lia).
    f_equal. f_equal. lia. }
  split; [ | exact Hfix].
  destruct (clampScore_range raw) as (z & -> & Hz). apply Hfix, Hz.
Qed.

(** X2.  [clampScore] is monotone: of two finite numbers the smaller
    never gets the larger score. *)
Theorem clampScore_monotone (a b : JsValue) (p q : Q) :
  Number a = Fin p -> Number b = Fin q -> (p <= q)%Q ->
  exists za zb,
    clampScore a = of_Z za /\ clampScore b = of_Z zb /\ za <= zb.
Proof.
  intros Ha Hb Hpq. rewrite !clampScore_cases, Ha, Hb.
  pose proof (Qfloor_resp_le _ _ Hpq) as Hfloor.
  destruct (Z.ltb_spec (Qfloor p) 0), (Z.ltb_spec (Qfloor q) 0);
    eexists _, _; (split; [reflexivity | split; [reflexivity | lia]]).
Qed.

End ClampScoreMore.

(** ** The replay lookup and the unique index *)

Lemma hash_count_existsb h db :
  existsb (fun r => String.eqb (tx_hash r) h) (rows db) = false <->
  hash_count h db = 0%nat.
Proof.
  unfold hash_count. induction (rows db) as [ | r l IH]; simpl.
  - tauto.
  - destruct (String.eqb (tx_hash r) h); simpl; [ | exact IH].
    split; discriminate.
Qed.

Lemma select_tx_hash_count h db :
  select_tx_hash db (Some h) = [] <-> hash_count h db = 0%nat.
Proof.
  unfold select_tx_hash, hash_count.
  destruct (filter _ (rows db)); simpl; split; congruence.
Qed.

Section InsertLookup.
Context {rt : JsRuntime}.

(** X3.  The replay lookup and the unique index agree.  After a
    successful INSERT of hash [h] the lookup of [h] finds a row and the
    lookup of any other hash answers as before; and while the lookup of
    [h] finds a row, an INSERT of [h] fails and leaves the table as it
    is. *)
Theorem insert_then_lookup now db a s h paid i u :
  (forall db1,
     insert_score now db a s (Some h) paid i u = (db1, Ok tt) ->
     select_tx_hash db (Some h) = [] /\
     select_tx_hash db1 (Some h) = [1] /\
     forall h', h' <> h ->
       select_tx_hash db1 (Some h') = select_tx_hash db (Some h'))
  /\
  (select_tx_hash db (Some h) <> [] ->
   exists db1 e,
     insert_score now db a s (Some h) paid i u = (db1, Err e) /\
     rows db1 = rows db).
Proof.
  split.
  - intros db1 Hins.
    destruct (insert_score_ok _ _ _ _ _ _ _ _ _ Hins)
      as (z & hh & paidz & _ & Hh & _ & Hex & ->).
    injection Hh as <-.
    assert (Hnone : filter (fun r => String.eqb (tx_hash r) h) (rows db) = []).
    { apply hash_count_existsb in Hex. unfold hash_count in Hex.
      destruct (filter _ (rows db)); [reflexivity | discriminate]. }
    unfold select_tx_hash. cbn [rows filter tx_hash].
    rewrite String.eqb_refl, Hnone. repeat split.
    intros h' Hneq.
    replace (String.eqb h h') with false; [reflexivity | ].
    symmetry. apply String.eqb_neq. congruence.
  - intros Hfound.
    destruct (insert_score now db a s (Some h) paid i u)
      as [db1 [[] | e]] eqn:Hins.
    + exfalso. apply Hfound.
      destruct (insert_score_ok _ _ _ _ _ _ _ _ _ Hins)
        as (z & hh & paidz & _ & Hh & _ & Hex & _).
      injection Hh as <-.
      apply select_tx_hash_count, hash_count_existsb, Hex.
    + exists db1, e. split; [reflexivity | ].
      apply (insert_score_err _ _ _ _ _ _ _ _ _ _ Hins).
Qed.

End InsertLookup.

(** ** The trimming DELETE, again *)

Lemma firstn_firstn_le (A : Type) (k n : nat) (l : list A) :
  (k <= n)%nat -> firstn k (firstn n l) = firstn k l.
Proof. intros H. rewrite firstn_firstn. f_equal. lia. Qed.

Lemma filter_idempotent (A : Type) (f : A -> bool) (l : list A) :
  filter f (filter f l) = filter f l.
Proof.
  induction l as [ | x l IH]; [reflexivity | ].
  simpl. destruct (f x) eqn:E; simpl; rewrite ?E, IH; reflexivity.
Qed.

(** X4.  Trimming twice is trimming once. *)
Theorem delete_not_top100_idempotent db :
  NoDup (map id (rows db)) ->
  delete_not_top100 (delete_not_top100 db) = delete_not_top100 db.
Proof.
  intros Hnd.
  pose proof (delete_not_top100_sorted db Hnd) as Hsorted.
  unfold delete_not_top100 at 1. rewrite Hsorted.
  rewrite firstn_firstn_le by lia.
  unfold delete_not_top100. cbn [rows next_id score_check inserted].
  f_equal. apply filter_idempotent.
Qed.

(** X5.  Trimming is invisible to the ranked query: for a limit of at
    most 100 the query answers the same on the trimmed table as on the
    table before trimming. *)
Theorem trimming_keeps_top db (k : Z) :
  NoDup (map id (rows db)) ->
  0 <= k <= 100 ->
  select_top (delete_not_top100 db) (of_Z k) = select_top db (of_Z k) /\
  select_top db (of_Z k)
  = Ok (map entry_of (firstn (Z.to_nat k) (order_by rank_leb (rows db)))).
Proof.
  intros Hnd Hk. unfold select_top.
  rewrite (sql_bigint_small k) by lia.
  replace (k <? 0) with false by (symmetry; apply Z.ltb_ge; lia).
  rewrite (delete_not_top100_sorted db Hnd).
  rewrite firstn_firstn_le by lia. split; reflexivity.
Qed.

(** ** The schema's constraints under interleaving *)

Lemma kept_rows_NoDup (B : Type) (key : Row -> B) (keep : Row -> bool)
    (table : list Row) :
  NoDup (map key table) -> NoDup (map key (filter keep table)).
Proof.
  intros Hnd. induction table as [ | x table IH]; cbn [filter map];
    [constructor | ].
  cbn [map] in Hnd. apply NoDup_cons_iff in Hnd. destruct Hnd as [Hx Hrest].
  destruct (keep x); cbn [map]; [ | apply IH, Hrest].
  apply NoDup_cons; [ | apply IH, Hrest].
  intros Hin. apply Hx. apply in_map_iff in Hin.
  destruct Hin as (y & Hy & Hin). apply filter_In in Hin.
  apply in_map_iff. exists y. tauto.
Qed.

Section SchemaKept.
Context {rt : JsRuntime}.

Lemma insert_score_schema now db a s h paid i u :
  schema_holds db ->
  schema_holds (fst (insert_score now db a s h paid i u)).
Proof.
  intros (Hhash & Hid & Hlt & Hchk). unfold insert_score.
  assert (Hbump : schema_holds
            (mkStore (rows db) (next_id db + 1) (score_check db)
                     (inserted db))).
  { refine (conj _ (conj _ (conj _ _))); cbn; auto.
    intros r Hr. specialize (Hlt r Hr). lia. }
  assert (Hsame : schema_holds db)
    by (refine (conj _ (conj _ (conj _ _))); assumption).
  destruct (sql_bigint s) as [z | ]; [ | exact Hsame].
  destruct (timestamptz_in paid) as [paidz | ]; [ | exact Hsame].
  destruct h as [hh | ]; [ | exact Hbump].
  destruct (score_check db && _) eqn:Echeck; [exact Hbump | ].
  destruct (existsb _ (rows db)) eqn:Eex; [exact Hbump | ].
  destruct (index_row_error hh); [exact Hbump | ].
  cbn [fst]. refine (conj _ (conj _ (conj _ _)));
    cbn [rows next_id score_check map tx_hash id].
  - constructor; [ | exact Hhash].
    intros Hin. apply in_map_iff in Hin. destruct Hin as (r & Hr & Hin).
    assert (Hex : existsb (fun r => String.eqb (tx_hash r) hh) (rows db)
                  = true).
    { apply existsb_exists. exists r. split; [exact Hin | ].
      rewrite Hr. apply String.eqb_refl. }
    congruence.
  - constructor; [ | exact Hid].
    intros Hin. apply in_map_iff in Hin. destruct Hin as (r & Hr & Hin).
    specialize (Hlt r Hin). lia.
  - intros r [<- | Hr]; cbn; [lia | specialize (Hlt r Hr); lia].
  - intros Hc r [<- | Hr]; [ | apply Hchk; assumption].
    cbn [score]. rewrite Hc in Echeck. cbn [andb] in Echeck.
    apply negb_false_iff, andb_true_iff in Echeck.
    destruct Echeck as [H0 H1]. apply Z.leb_le in H0, H1. lia.
Qed.

Lemma delete_not_top100_schema db :
  schema_holds db -> schema_holds (delete_not_top100 db).
Proof.
  intros (Hhash & Hid & Hlt & Hchk). unfold delete_not_top100.
  refine (conj _ (conj _ (conj _ _))); cbn [rows next_id score_check].
  - apply kept_rows_NoDup, Hhash.
  - apply kept_rows_NoDup, Hid.
  - intros r Hr. apply filter_In in Hr. apply Hlt, Hr.
  - intros Hc r Hr. apply filter_In in Hr. apply Hchk; tauto.
Qed.

Lemma perform_schema (X : Type) (c : Call X) w db :
  schema_holds db -> schema_holds (fst (perform w db c)).
Proof.
  intros H. destruct c; cbn [perform fst]; try exact H.
  - apply insert_score_schema, H.
  - apply delete_not_top100_schema, H.
Qed.

Lemma run_schema (A : Type) (p : Proc A) w db :
  schema_holds db -> schema_holds (fst (run w db p)).
Proof.
  revert db. induction p as [a | e | X c k IH]; intros db Hs; cbn [run fst];
    try exact Hs.
  pose proof (perform_schema X c w db Hs) as Hp.
  destruct (perform w db c) as [db' r]. apply IH, Hp.
Qed.

Lemma step_schema (A : Type) (p : Proc A) w db :
  schema_holds db -> schema_holds (fst (step w db p)).
Proof.
  intros Hs. destruct p as [a | e | X c k]; cbn [step fst]; try exact Hs.
  pose proof (perform_schema X c w db Hs) as Hp.
  destruct (perform w db c) as [db' r]. exact Hp.
Qed.

(** X6.  Whatever two handlers do and however their calls interleave,
    the constraints of the schema hold afterwards if they held before:
    no two rows share a [tx_hash] or an [id], every [id] is below the
    sequence, and a table with the CHECK holds only scores between 0
    and 1,000,000,000.  The same holds for a handler run alone. *)
Theorem schema_kept_under_race (A : Type) (p q : Proc A) w sched db :
  schema_holds db ->
  schema_holds (fst (fst (race w sched db p q))) /\
  schema_holds (fst (run w db p)).
Proof.
  intros Hs. split; [ | apply run_schema, Hs].
  revert db p q Hs. induction sched as [ | [ | ] rest IH]; intros db p q Hs.
  - exact Hs.
  - cbn [race]. pose proof (step_schema A p w db Hs) as Hp.
    destruct (step w db p) as [db' p']. apply IH, Hp.
  - cbn [race]. pose proof (step_schema A q w db Hs) as Hq.
    destruct (step w db q) as [db' q']. apply IH, Hq.
Qed.

End SchemaKept.

(** ** At most one acceptance per [txHash] without trimming *)

Lemma hash_count_le_1 h db :
  NoDup (map tx_hash (rows db)) -> (hash_count h db <= 1)%nat.
Proof.
  unfold hash_count. induction (rows db) as [ | r l IH]; simpl; intros Hnd;
    [lia | ].
  inversion Hnd as [ | ? ? Hnotin Hnd']; subst.
  destruct (String.eqb_spec (tx_hash r) h) as [E | E]; [ | apply IH, Hnd'].
  simpl. destruct (filter _ l) as [ | r' l'] eqn:Ef; [simpl; lia | ].
  exfalso. apply Hnotin.
  assert (Hin : In r' (filter (fun r => String.eqb (tx_hash r) h) l))
    by (rewrite Ef; left; reflexivity).
  apply filter_In in Hin. destruct Hin as [Hin Heq].
  apply String.eqb_eq in Heq. apply in_map_iff. exists r'. split; congruence.
Qed.


Section AtMostOnce.
Context {rt : JsRuntime}.

Lemma reads_only_bind (A B : Type) (p : Proc A) (f : A -> Proc B) :
  reads_only p -> (forall a, reads_only (f a)) -> reads_only (bind p f).
Proof.
  intros Hp Hf. induction p as [a | e | X c k IH]; cbn; auto.
  destruct Hp as (Hd & Hi & Hk). repeat split; auto.
Qed.

Lemma reads_only_tryCatch (A : Type) (p : Proc A) (h : JsError -> Proc A) :
  reads_only p -> (forall e, reads_only (h e)) -> reads_only (tryCatch p h).
Proof.
  intros Hp Hh. induction p as [a | e | X c k IH]; cbn; auto.
  destruct Hp as (Hd & Hi & Hk). repeat split; auto.
Qed.

Lemma reads_only_of_result (A : Type) (r : Result A) :
  reads_only (of_result r).
Proof. destruct r; exact I. Qed.

Lemma reads_only_getJson url : reads_only (getJson url).
Proof.
  unfold getJson. apply reads_only_bind.
  - cbn. repeat split. intros r. apply reads_only_of_result.
  - intros r. destruct (negb (ok r)); [exact I | apply reads_only_of_result].
Qed.

Lemma reads_only_template url txHash : reads_only (template url txHash).
Proof.
  unfold template. destruct (ToString txHash); exact I.
Qed.

Lemma reads_only_isRecent iso minutes : reads_only (isRecent iso minutes).
Proof. cbn. repeat split. intros [now | e]; exact I. Qed.

Lemma reads_only_txAlreadyUsed v : reads_only (txAlreadyUsed v).
Proof. cbn. repeat split. intros [l | e]; exact I. Qed.

Lemma before_insert_bind h (A : Type) (p : Proc A) (f : A -> Proc Response) :
  reads_only p -> (forall a, before_insert h (f a)) ->
  before_insert h (bind p f).
Proof.
  intros Hp Hf. induction p as [a | e | X c k IH]; cbn; auto.
  destruct Hp as (Hd & Hi & Hk). rewrite Hi. split; auto.
Qed.

Lemma before_insert_tryCatch h (p : Proc Response) :
  before_insert h p -> before_insert h (tryCatch p server_error).
Proof.
  induction p as [a | e | X c k IH]; cbn.
  - auto.
  - intros _. discriminate.
  - intros (Hd & Hk). split; [exact Hd | ].
    destruct (insert_hash c) as [h' | ].
    + destruct Hk as (Hh & Herr & Hok). repeat split; auto.
      intros x. apply reads_only_tryCatch; [apply Hok | intros e; exact I].
    + auto.
Qed.

Lemma before_insert_verifyAndStore h respond req addr :
  prepareValue (body_txHash req) = Some h ->
  reads_only respond ->
  before_insert h (verifyAndStore respond req addr).
Proof.
  intros Hh Hresp. unfold verifyAndStore. cbv zeta.
  apply before_insert_bind; [apply reads_only_template | intros url].
  apply before_insert_bind; [apply reads_only_getJson | intros tx].
  destruct (negb (strict_eq_true _)); [cbn; discriminate | ].
  destruct (truthy _ && _); [cbn; discriminate | ].
  apply before_insert_bind; [apply reads_only_isRecent | intros recent].
  destruct (negb recent); [cbn; discriminate | ].
  apply before_insert_bind; [apply reads_only_template | intros url'].
  apply before_insert_bind; [apply reads_only_getJson | intros opsPage].
  destruct (negb (_ =? _)%nat); [cbn; discriminate | ].
  rewrite Hh. cbn. repeat split; auto.
Qed.

Lemma before_insert_handler h respond req :
  prepareValue (body_txHash req) = Some h ->
  reads_only respond ->
  before_insert h (submitScore_handler respond req).
Proof.
  intros Hh Hresp. unfold submitScore_handler.
  apply before_insert_tryCatch. cbv zeta.
  destruct (_ || _); [cbn; discriminate | ].
  apply before_insert_bind; [apply reads_only_of_result | intros text].
  destruct (negb (address_re _)); [cbn; discriminate | ].
  apply before_insert_bind; [apply reads_only_txAlreadyUsed | intros used].
  destruct used; [cbn; discriminate | ].
  apply before_insert_verifyAndStore; assumption.
Qed.

Lemma perform_reads_only (X : Type) (c : Call X) w db :
  is_delete c = false -> insert_hash c = None -> fst (perform w db c) = db.
Proof. destruct c; cbn; intros; try reflexivity; discriminate. Qed.

Lemma step_reads_only (A : Type) (p : Proc A) w db :
  reads_only p ->
  fst (step w db p) = db /\ reads_only (snd (step w db p)).
Proof.
  destruct p as [a | e | X c k]; cbn [step fst snd]; auto.
  intros (Hd & Hi & Hk).
  pose proof (perform_reads_only X c w db Hd Hi) as Hp.
  destruct (perform w db c) as [db' r]. cbn in *. auto.
Qed.

Lemma step_before_insert h (p : Proc Response) w db :
  before_insert h p ->
  (hash_count h (fst (step w db p)) = hash_count h db /\
   before_insert h (snd (step w db p)))
  \/
  (hash_count h db = 0%nat /\
   hash_count h (fst (step w db p)) = 1%nat /\
   reads_only (snd (step w db p))).
Proof.
  destruct p as [a | e | X c k]; cbn [step fst snd]; auto.
  intros (Hd & Hk).
  destruct (insert_hash c) as [h' | ] eqn:Hi.
  - destruct Hk as (-> & Herr & Hok).
    destruct c; try discriminate Hi. cbn in Hi. injection Hi as ->.
    cbn [perform].
    destruct (insert_score _ _ _ _ _ _ _ _) as [db' [[] | e]] eqn:Hins;
      cbn [fst snd].
    + right.
      destruct (insert_score_ok _ _ _ _ _ _ _ _ _ Hins)
        as (z & hh & paidz & _ & Hhh & _ & Hex & ->).
      injection Hhh as <-.
      apply hash_count_existsb in Hex. repeat split; auto.
      unfold hash_count in *. cbn [rows filter tx_hash].
      rewrite String.eqb_refl. cbn [List.length]. rewrite Hex. reflexivity.
    + left. split; [ | apply Herr].
      destruct (insert_score_err _ _ _ _ _ _ _ _ _ _ Hins) as (Hr & _).
      unfold hash_count. rewrite Hr. reflexivity.
  - left. pose proof (perform_reads_only X c w db Hd Hi) as Hp.
    destruct (perform w db c) as [db' r]. cbn in *. subst db'. auto.
Qed.

(** The bookkeeping of a race between two submissions of the hash [h]:
    [a] and [b] tell which of the two has passed its INSERT, [n0] counts
    the rows of [h] that were there before. *)
Lemma race_bookkeeping h w sched db (p q : Proc Response) (a b : bool)
    (n0 : nat) :
  (if a then reads_only p else before_insert h p) ->
  (if b then reads_only q else before_insert h q) ->
  (Nat.b2n a + Nat.b2n b + n0 <= hash_count h db)%nat ->
  (hash_count h db <= 1)%nat ->
  exists a' b' : bool,
    (if a' then reads_only (snd (fst (race w sched db p q)))
     else before_insert h (snd (fst (race w sched db p q)))) /\
    (if b' then reads_only (snd (race w sched db p q))
     else before_insert h (snd (race w sched db p q))) /\
    (Nat.b2n a' + Nat.b2n b' + n0
     <= hash_count h (fst (fst (race w sched db p q))))%nat /\
    (hash_count h (fst (fst (race w sched db p q))) <= 1)%nat.
Proof.
  revert db p q a b.
  induction sched as [ | [ | ] rest IH]; intros db p q a b Hp Hq Hsum Hle.
  - exists a, b. auto.
  - cbn [race]. destruct a.
    + destruct (step_reads_only _ p w db Hp) as (Hdb & Hp').
      destruct (step w db p) as [db' p']. cbn [fst snd] in *. subst db'.
      apply (IH db p' q true b); auto.
    + destruct (step_before_insert h p w db Hp)
        as [(Hc & Hp') | (H0 & H1 & Hp')];
        destruct (step w db p) as [db' p']; cbn [fst snd] in *.
      * apply (IH db' p' q false b); auto; rewrite Hc; auto.
      * assert (b = false) by (destruct b; cbn in Hsum; [lia | reflexivity]).
        subst b. apply (IH db' p' q true false); auto; rewrite H1; cbn in *;
          lia.
  - cbn [race]. destruct b.
    + destruct (step_reads_only _ q w db Hq) as (Hdb & Hq').
      destruct (step w db q) as [db' q']. cbn [fst snd] in *. subst db'.
      apply (IH db p q' a true); auto.
    + destruct (step_before_insert h q w db Hq)
        as [(Hc & Hq') | (H0 & H1 & Hq')];
        destruct (step w db q) as [db' q']; cbn [fst snd] in *.
      * apply (IH db' p q' a false); auto; rewrite Hc; auto.
      * assert (a = false) by (destruct a; cbn in Hsum; [lia | reflexivity]).
        subst a. apply (IH db' p q' false true); auto; rewrite H1; cbn in *;
          lia.
Qed.

(** X7.  Variant 2 accepts a [txHash] at most once, however two
    submissions of it interleave: on a table whose hashes are unique,
    two handlers for the same [txHash] never both end with a 200, and
    if the table already holds the hash neither of them does. *)
Theorem noprune_at_most_one_acceptance w sched db req1 req2 db' r1 r2 :
  body_txHash req2 = body_txHash req1 ->
  NoDup (map tx_hash (rows db)) ->
  race w sched db (Variant2.submitScore req1) (Variant2.submitScore req2)
  = (db', Ret r1, Ret r2) ->
  ~ (status r1 = 200 /\ status r2 = 200) /\
  (forall h, prepareValue (body_txHash req1) = Some h ->
             hash_count h db = 1%nat ->
             status r1 <> 200 /\ status r2 <> 200).
Proof.
  intros Hsame Hnd Hrace.
  assert (Hresp : reads_only Variant2.respond).
  { cbn. repeat split. intros [l | e]; exact I. }
  assert (Hkey : forall h n0,
    before_insert h (Variant2.submitScore req1) ->
    before_insert h (Variant2.submitScore req2) ->
    (n0 <= hash_count h db)%nat ->
    exists a' b' : bool,
      (a' = false -> status r1 <> 200) /\
      (b' = false -> status r2 <> 200) /\
      (Nat.b2n a' + Nat.b2n b' + n0 <= 1)%nat).
  { intros h n0 Hp Hq Hn0.
    pose proof (hash_count_le_1 h db Hnd) as Hle.
    destruct (race_bookkeeping h w sched db _ _ false false n0 Hp Hq)
      as (a' & b' & Ha' & Hb' & Hsum' & Hle'); [cbn; lia | exact Hle | ].
    rewrite Hrace in Ha', Hb', Hsum', Hle'. cbn [fst snd] in *.
    exists a', b'. split; [ | split].
    - intros E. rewrite E in Ha'. exact Ha'.
    - intros E. rewrite E in Hb'. exact Hb'.
    - lia. }
  assert (Hpre : forall h,
    (truthy (body_txHash req1) = true ->
     prepareValue (body_txHash req1) = Some h) ->
    before_insert h (Variant2.submitScore req1) /\
    before_insert h (Variant2.submitScore req2)).
  { intros h Hh. destruct (truthy (body_txHash req1)) eqn:Ht.
    - split; apply before_insert_handler; auto.
      rewrite Hsame. auto.
    - split; unfold Variant2.submitScore, submitScore_handler;
        apply before_insert_tryCatch; cbv zeta; rewrite ?Hsame, Ht;
        cbn; discriminate. }
  split.
  - assert (Hex : exists h, truthy (body_txHash req1) = true ->
                            prepareValue (body_txHash req1) = Some h).
    { destruct (truthy (body_txHash req1)) eqn:Ht.
      - destruct (truthy_prepareValue _ Ht) as (h & Hh). eauto.
      - exists "". discriminate. }
    destruct Hex as (h & Hh). destruct (Hpre h Hh) as (Hp & Hq).
    destruct (Hkey h 0%nat Hp Hq) as (a' & b' & Ha' & Hb' & Hsum'); [lia | ].
    intros [H1 H2]. destruct a', b'; cbn in Hsum'; try lia; auto.
  - intros h Hh Hcount. destruct (Hpre h (fun _ => Hh)) as (Hp & Hq).
    destruct (Hkey h 1%nat Hp Hq) as (a' & b' & Ha' & Hb' & Hsum'); [lia | ].
    destruct a', b'; cbn in Hsum'; try lia; auto.
Qed.

End AtMostOnce.

(** ** The answers of the submit handler *)

Ltac rejected Hhere :=
  let E := fresh "E" in
  intros E; left; eapply Hhere; [ | exact E]; auto.

Section Answers.
Context {rt : JsRuntime}.

Lemma run_respond_exact v w db :
  run w db (tryCatch (respond_of v) server_error) =
  (store_after v db,
   Ok (mkResponse 200
         (OkTop10 (map entry_of
                     (firstn 10 (order_by (ranking_of v)
                                   (rows (store_after v db)))))))).
Proof. destruct v; reflexivity. Qed.

(** Every run of the submit handler is a rejection that leaves the
    table alone, or an acceptance. *)
Lemma submit_effect v w db req db' r :
  run w db (submitScore_of v req) = (db', Ok r) ->
  ((status r = 400 \/ status r = 409 \/ status r = 500) /\
   (exists text, body r = Text text) /\
   rows db' = rows db /\ inserted db' = inserted db /\
   score_check db' = score_check db /\ next_id db <= next_id db')
  \/
  (status r = 200 /\
   exists top, body r = OkTop10 top /\ (List.length top <= 10)%nat).
Proof.
  rewrite submitScore_of_handler, run_submitScore_handler.
  assert (Hrej : forall db1 c t,
            c = 400 \/ c = 409 \/ c = 500 ->
            rows db1 = rows db -> inserted db1 = inserted db ->
            score_check db1 = score_check db -> next_id db <= next_id db1 ->
            (db1, Ok (send c t)) = (db', Ok r) ->
            (status r = 400 \/ status r = 409 \/ status r = 500) /\
            (exists text, body r = Text text) /\
            rows db' = rows db /\ inserted db' = inserted db /\
            score_check db' = score_check db /\ next_id db <= next_id db').
  { intros db1 c t Hc Hr Hi Hs Hn E. injection E as <- <-.
    cbn [status body send]. split; [exact Hc | ].
    split; [eexists; reflexivity | auto]. }
  assert (Hhere : forall c t,
            c = 400 \/ c = 409 \/ c = 500 ->
            (db, Ok (send c t)) = (db', Ok r) ->
            (status r = 400 \/ status r = 409 \/ status r = 500) /\
            (exists text, body r = Text text) /\
            rows db' = rows db /\ inserted db' = inserted db /\
            score_check db' = score_check db /\ next_id db <= next_id db').
  { intros c t Hc. apply Hrej; auto. lia. }
  destruct (_ || _); [rejected Hhere | ].
  destruct (negb (printable (body_address req))); [rejected Hhere | ].
  destruct (negb (address_re _)); [rejected Hhere | ].
  destruct (_ <? _)%nat; [rejected Hhere | ].
  rewrite run_verifyAndStore.
  destruct (negb (printable (body_txHash req))); [rejected Hhere | ].
  destruct (getJson_outcome w (transaction_url _)) as [tx | e];
    [ | destruct (run_server_error w db e) as [? ->];
        rejected Hhere].
  destruct (negb (strict_eq_true _)); [rejected Hhere | ].
  destruct (truthy _ && _); [rejected Hhere | ].
  destruct (negb (within_minutes _ _ _)); [rejected Hhere | ].
  destruct (getJson_outcome w (operations_url _)) as [opsPage | e];
    [ | destruct (run_server_error w db e) as [? ->];
        rejected Hhere].
  destruct (negb (_ =? _)%nat); [rejected Hhere | ].
  destruct (insert_score _ _ _ _ _ _ _ _) as [db1 [[] | e]] eqn:Hins.
  - rewrite run_respond_exact.
    remember (firstn 10 (order_by (ranking_of v) (rows (store_after v db1))))
      as top eqn:Etop.
    intros E. injection E as _ <-. right.
    split; [reflexivity | ]. eexists. split; [reflexivity | ].
    rewrite length_map, Etop. apply firstn_le_length.
  - destruct (insert_score_err _ _ _ _ _ _ _ _ _ _ Hins)
      as (Hr & Hi & Hs & Hn).
    destruct (run_server_error w db1 e) as [? ->].
    intros E. left. eapply Hrej; [ | | | | | exact E]; auto.
Qed.

(** X8.  The submit handler always answers, and only with status 200,
    400, 409 or 500.  A 200 carries a ranking of at most ten entries;
    every other answer carries a plain text. *)
Theorem submitScore_statuses v w db req :
  exists db' r,
    run w db (submitScore_of v req) = (db', Ok r) /\
    ((status r = 200 /\
      exists top, body r = OkTop10 top /\ (List.length top <= 10)%nat)
     \/
     ((status r = 400 \/ status r = 409 \/ status r = 500) /\
      exists text, body r = Text text)).
Proof.
  destruct (submitScore_responds v w db req) as (db' & r & Hrun).
  exists db', r. split; [exact Hrun | ].
  destruct (submit_effect v w db req db' r Hrun)
    as [(Hs & Ht & _) | H200]; [right | left]; auto.
Qed.

(** X9.  A submission that is not accepted writes nothing: whenever the
    answer is not a 200, the table and the history of inserted rows are
    what they were. *)
Theorem rejection_writes_nothing v w db req db' r :
  run w db (submitScore_of v req) = (db', Ok r) ->
  status r <> 200 ->
  rows db' = rows db /\ inserted db' = inserted db /\
  score_check db' = score_check db.
Proof.
  intros Hrun Hnot.
  destruct (submit_effect v w db req db' r Hrun)
    as [(_ & _ & Hr & Hi & Hs & _) | (H200 & _)];
    [auto | contradiction].
Qed.

(** X10.  The row an accepted submission adds to the table (the table
    afterwards is the old one with this row added, trimmed in variant
    1): its [id] is the next value of the sequence, its address is the
    upper-cased address of the request and matches the address pattern,
    its score lies between 0 and 1,000,000,000, its [paid_at] is the
    creation time of the transaction as the ledger reports it, and its
    [created_at] is the database time of the INSERT. *)
Theorem accepted_row_is_well_formed v w db req db' r :
  run w db (submitScore_of v req) = (db', Ok r) ->
  status r = 200 ->
  exists row tx,
    db' = store_after v
            (mkStore (row :: rows db) (next_id db + 1) (score_check db)
                     (row :: inserted db)) /\
    inserted db' = row :: inserted db /\
    id row = next_id db /\
    address row = toUpperCase (String_ (body_address req)) /\
    address_re (address row) = true /\
    0 <= score row <= 1000000000 /\
    getJson_outcome w (transaction_url (body_txHash req)) = Ok tx /\
    timestamptz_in (tx_created_at tx) = Some (paid_at row) /\
    created_at row = NOW w /\
    ip row = or_null (req_ip req) /\ ua row = or_null (user_agent req).
Proof.
  intros Hrun H200. rewrite submitScore_of_handler in Hrun.
  destruct (accepted_inv _ _ _ _ _ _ Hrun H200)
    as (tx & opsPage & db1 & _ & _ & _ & Hre & _ & Htx & _ & _ & _ & _ & _
        & Hins & Hresp).
  destruct (insert_score_ok _ _ _ _ _ _ _ _ _ Hins)
    as (z & hh & paidz & Hz & _ & Hpaid & _ & ->).
  rewrite run_respond_exact in Hresp. injection Hresp as <- _.
  eexists _, tx. rewrite inserted_store_after.
  split; [reflexivity | ]. cbn.
  split; [reflexivity | ]. repeat split; auto.
  - destruct (clampScore_range (body_score req)) as (z0 & E & Hz0).
    rewrite E in Hz. apply sql_bigint_of_Z in Hz. cbn [score]. lia.
  - destruct (clampScore_range (body_score req)) as (z0 & E & Hz0).
    rewrite E in Hz. apply sql_bigint_of_Z in Hz. cbn [score]. lia.
Qed.

End Answers.

(** ** Sequences of submissions *)

Section Sequences.
Context {rt : JsRuntime}.

Lemma serve_invariant (P : Store -> Prop) v :
  (forall w db req db' r,
     P db -> run w db (submitScore_of v req) = (db', Ok r) -> P db') ->
  forall reqs db, P db -> P (fst (serve (submitScore_of v) db reqs)).
Proof.
  intros Hstep reqs. induction reqs as [ | [w req] rest IH]; intros db HP.
  - exact HP.
  - rewrite serve_cons. apply IH.
    destruct (submitScore_responds v w db req) as (db' & r & Hrun).
    rewrite Hrun. cbn [fst]. eapply Hstep; eassumption.
Qed.

(** X11.  In both variants, also in variant 2 whose table has no CHECK,
    every row of the table keeps a score between 0 and 1,000,000,000 and
    an address that matches the address pattern, whatever sequence of
    submissions is served. *)
Theorem table_rows_stay_well_formed v reqs db :
  Forall (fun r => 0 <= score r <= 1000000000 /\
                   address_re (address r) = true) (rows db) ->
  Forall (fun r => 0 <= score r <= 1000000000 /\
                   address_re (address r) = true)
         (rows (fst (serve (submitScore_of v) db reqs))).
Proof.
  apply (serve_invariant
           (fun db => Forall (fun r => 0 <= score r <= 1000000000 /\
                                       address_re (address r) = true)
                             (rows db))).
  clear db reqs. intros w db req db' r HP Hrun.
  destruct (Z.eq_dec (status r) 200) as [H200 | Hnot].
  - pose proof (accepted_store v w db req db' r Hrun H200)
      as (row & hh & paidz & z & _ & Hz & _ & Hrow & ->).
    assert (Hnew : 0 <= score row <= 1000000000 /\
                   address_re (address row) = true).
    { subst row. cbn [score address]. split.
      - destruct (clampScore_range (body_score req)) as (z0 & E & Hz0).
        rewrite E in Hz. apply sql_bigint_of_Z in Hz. lia.
      - rewrite submitScore_of_handler in Hrun.
        destruct (accepted_inv _ _ _ _ _ _ Hrun H200)
          as (_ & _ & _ & _ & _ & _ & Hre & _). exact Hre. }
    assert (Hall : Forall (fun r => 0 <= score r <= 1000000000 /\
                                    address_re (address r) = true)
                          (row :: rows db))
      by (constructor; assumption).
    destruct v; cbn [store_after]; [ | exact Hall].
    unfold delete_not_top100. cbn [rows].
    rewrite Forall_forall in *. intros x Hx. apply filter_In in Hx.
    apply Hall, Hx.
  - destruct (submit_effect v w db req db' r Hrun)
      as [(_ & _ & Hr & _) | (H200 & _)]; [ | contradiction].
    rewrite Hr. exact HP.
Qed.

(** X12.  Variant 2 never forgets a [txHash]: once the table holds a row
    for it, no later submission of it is accepted, whatever is served
    in between.  A later submission of it is answered as the steps
    before the replay guard decide (the missing-fields rejection, a 500
    when [String(address)] throws, the bad-address rejection), else
    with 409; none of these answers is a 200, and the database is left
    as it was. *)
Theorem noprune_replay_rejected_forever reqs db row w req :
  In row (rows db) ->
  Some (tx_hash row) = prepareValue (body_txHash req) ->
  let db1 := fst (serve Variant2.submitScore db reqs) in
  run w db1 (Variant2.submitScore req) =
  (db1, Ok (if negb (truthy (body_txHash req))
               || negb (truthy (body_address req))
               || negb (String.eqb (typeof (body_score req)) "number")
            then send 400 "txHash, address, score required"
            else if negb (printable (body_address req))
            then send 500 "Cannot convert object to primitive value"
            else if negb (address_re
                            (toUpperCase (String_ (body_address req))))
            then send 400 "bad address"
            else send 409 "tx already used"))
  /\ (forall db' r,
        run w db1 (Variant2.submitScore req) = (db', Ok r) ->
        status r <> 200 /\ db' = db1).
Proof.
  intros Hin Hhash db1.
  assert (Hlater : In row (rows db1)); [ | split].
  2: exact (run_when_row_present NoPrune w db1 req row Hlater Hhash).
  2: { intros db' r.
       change (Variant2.submitScore req) with (submitScore_of NoPrune req).
       rewrite (run_when_row_present NoPrune w db1 req row Hlater Hhash).
       intros E. injection E as <- <-. split; [ | reflexivity].
       destruct (_ || _); [discriminate | ].
       destruct (negb (printable _)); [discriminate | ].
       destruct (negb (address_re _)); discriminate. }
  unfold db1.
  apply (serve_invariant (fun db => In row (rows db)) NoPrune); [ | exact Hin].
  clear. intros w db req db' r HP Hrun.
  destruct (run_store_cases NoPrune w db req db' r Hrun)
    as [(Hr & _) | (row' & _ & ->)].
  - rewrite Hr. exact HP.
  - cbn. right. exact HP.
Qed.

(** X13.  After any sequence of submissions served by variant 1 on a
    fresh database, [GET /leaderboard?limit=100] (any limit whose
    effective value is 100) lists the whole table. *)
Theorem autoprune_leaderboard_lists_table reqs w limit q :
  leaderboard_limit limit = Fin q -> (q == 100)%Q ->
  let db := fst (serve Variant1.submitScore ensureSchema_v1 reqs) in
  run w db (Variant1.leaderboard limit) =
  (db, Ok (mkResponse 200
             (Top (map entry_of (order_by rank_leb (rows db)))))).
Proof.
  intros HN Hq db.
  change (Variant1.leaderboard limit) with (leaderboard_of Autoprune limit).
  rewrite (run_leaderboard_of Autoprune w db limit q 100 HN Hq).
  cbn [ranking_of]. do 5 f_equal.
  apply firstn_all2. change (Z.to_nat 100) with 100%nat.
  assert (Hinv : autoprune_invariant db).
  { apply invariant_serve.
    refine (conj _ (conj _ _)); [reflexivity | constructor | intros r []]. }
  destruct Hinv as (Hsorted & _).
  rewrite Hsorted. apply firstn_le_length.
Qed.

End Sequences.

(** ** The ledger, the clock and the address *)

Lemma upper_char_idempotent (c : ascii) :
  upper_char (upper_char c) = upper_char c.
Proof. destruct c as [[] [] [] [] [] [] [] []]; reflexivity. Qed.

Lemma toUpperCase_idempotent (s : string) :
  toUpperCase (toUpperCase s) = toUpperCase s.
Proof.
  induction s as [ | c s IH]; [reflexivity | ].
  cbn [toUpperCase]. rewrite upper_char_idempotent, IH. reflexivity.
Qed.

Lemma toUpperCase_empty (s t : string) :
  toUpperCase s = toUpperCase t ->
  String.eqb s "" = String.eqb t "".
Proof. destruct s, t; simpl; intros H; try reflexivity; discriminate. Qed.

Section LedgerClockAddress.
Context {rt : JsRuntime}.

(** X14.  A ledger that answers the transaction request with a status
    other than success makes the submit handler answer 500 with the text
    "Horizon error" followed by the status, and nothing is written; the
    same holds when the operations request is the one that fails. *)
Theorem ledger_failure_is_500 v w db req resp :
  passes_request_checks db req ->
  ok resp = false ->
  (fetch w (transaction_url (body_txHash req)) = Ok resp ->
   run w db (submitScore_of v req) =
   (db, Ok (send 500 ("Horizon error "
                      ++ NumberToString (of_Z (http_status resp))))))
  /\
  (forall tx,
     reaches_memo_check w db req tx ->
     truthy (memo_type tx) && negb (strict_eq_str (memo_type tx) "none")
       = false ->
     within_minutes (Date_now w) (tx_created_at tx) 30 = true ->
     fetch w (operations_url (body_txHash req)) = Ok resp ->
     run w db (submitScore_of v req) =
     (db, Ok (send 500 ("Horizon error "
                        ++ NumberToString (of_Z (http_status resp)))))).
Proof.
  intros (Ht & Ha & Hs & Hpa & Hre & Hsel & Hph) Hok. split.
  - intros Hfetch.
    rewrite submitScore_of_handler, run_submitScore_handler.
    rewrite Ht, Ha, Hs, Hpa, Hre, Hsel.
    change (String.eqb "number" "number") with true.
    cbn [negb orb List.length Nat.ltb Nat.leb].
    rewrite run_verifyAndStore, Hph. unfold getJson_outcome.
    rewrite Hfetch, Hok. reflexivity.
  - intros tx Hreach Hmemo Hrecent Hfetch.
    rewrite submitScore_of_handler.
    rewrite (run_from_memo_check _ _ _ _ _ Hreach), Hmemo, Hrecent.
    cbn [negb]. unfold getJson_outcome at 1.
    rewrite Hfetch, Hok. reflexivity.
Qed.

(** X15.  The submit handler reads the address without regard to case:
    two requests that differ only in their address strings, and whose
    addresses agree once upper-cased, get the same answer and leave the
    same database. *)
Theorem address_case_is_ignored v w db req s t :
  toUpperCase s = toUpperCase t ->
  body_address req = JStr s ->
  run w db (submitScore_of v req) =
  run w db (submitScore_of v
              (mkRequest (body_txHash req) (JStr t) (body_score req)
                         (req_ip req) (user_agent req))).
Proof.
  intros Hup Hs.
  rewrite !submitScore_of_handler, !run_submitScore_handler,
    !run_verifyAndStore.
  cbn [body_txHash body_address body_score req_ip user_agent].
  rewrite Hs. cbn [plain printable truthy String_].
  rewrite (toUpperCase_empty s t Hup), Hup. reflexivity.
Qed.

(** X16.  A transaction that is too old stays too old: if the handler
    answers "tx too old", it gives the same answer at every later clock
    reading, the ledger answering as before. *)
Theorem too_old_stays_too_old v w w' db req tx :
  reaches_memo_check w db req tx ->
  truthy (memo_type tx) && negb (strict_eq_str (memo_type tx) "none")
    = false ->
  within_minutes (Date_now w) (tx_created_at tx) 30 = false ->
  fetch w' = fetch w ->
  Date_now w <= Date_now w' ->
  run w db (submitScore_of v req) = (db, Ok (send 400 "tx too old")) /\
  run w' db (submitScore_of v req) = (db, Ok (send 400 "tx too old")).
Proof.
  intros Hreach Hmemo Hold Hfetch Hclock.
  assert (Hreach' : reaches_memo_check w' db req tx).
  { destruct Hreach as (Hchecks & Htx & Hok).
    split; [exact Hchecks | split; [ | exact Hok]].
    unfold getJson_outcome in *. rewrite Hfetch. exact Htx. }
  assert (Hold' : within_minutes (Date_now w') (tx_created_at tx) 30 = false).
  { unfold within_minutes in *.
    destruct (Date_getTime (tx_created_at tx)) as [t | ]; [ | reflexivity].
    apply Z.leb_gt in Hold. apply Z.leb_gt. lia. }
  rewrite !submitScore_of_handler.
  rewrite (run_from_memo_check _ _ _ _ _ Hreach), Hmemo, Hold.
  rewrite (run_from_memo_check _ _ _ _ _ Hreach'), Hmemo, Hold'.
  split; reflexivity.
Qed.

End LedgerClockAddress.

(** ** The leaderboard *)

Section LeaderboardMore.
Context {rt : JsRuntime}.

(** X17.  In variant 1 the ranking in the answer to an accepted
    submission is the head of the leaderboard: a [GET /leaderboard]
    with an effective limit of ten or more, served right after on the
    same database, lists the same entries first.  (Both queries of
    variant 1 order by [score DESC, created_at ASC, id ASC], which
    leaves no ties; the two queries of variant 2 have no such last key
    and are not compared here.) *)
Theorem top10_heads_the_leaderboard w w' db req db' r limit q n :
  run w db (Variant1.submitScore req) = (db', Ok r) ->
  status r = 200 ->
  leaderboard_limit limit = Fin q -> (q == inject_Z n)%Q -> 10 <= n ->
  exists top10 top,
    body r = OkTop10 top10 /\
    run w' db' (Variant1.leaderboard limit)
    = (db', Ok (mkResponse 200 (Top top)))
    /\ firstn 10 top = top10.
Proof.
  intros Hrun H200 HN Hq Hn.
  change (Variant1.leaderboard limit) with (leaderboard_of Autoprune limit).
  change (Variant1.submitScore req)
    with (submitScore_of Autoprune req) in Hrun.
  rewrite (run_leaderboard_of Autoprune w' db' limit q n HN Hq).
  rewrite submitScore_of_handler in Hrun.
  destruct (accepted_inv _ _ _ _ _ _ Hrun H200)
    as (tx & opsPage & db1 & _ & _ & _ & _ & _ & _ & _ & _ & _ & _ & _
        & _ & Hresp).
  rewrite run_respond_exact in Hresp.
  remember (order_by (ranking_of Autoprune)
              (rows (store_after Autoprune db1))) as L eqn:EL.
  remember (firstn 10 L) as F eqn:EF.
  injection Hresp as <- <-.
  eexists _, _. split; [reflexivity | ]. split; [reflexivity | ].
  change (rows (delete_not_top100 db1))
    with (rows (store_after Autoprune db1)).
  rewrite <- EL, firstn_map, EF. f_equal.
  apply firstn_firstn_le. lia.
Qed.

(** X18.  [GET /leaderboard] only reads: for every value of the [limit]
    parameter the database is left as it was, and when the handler
    answers, the answer is a 200 that lists at most 100 entries and no
    more than the table has rows. *)
Theorem leaderboard_reads_only v w db (limit : JsValue) :
  fst (run w db (leaderboard_of v limit)) = db /\
  forall r,
    snd (run w db (leaderboard_of v limit)) = Ok r ->
    status r = 200 /\
    exists top, body r = Top top /\
                (List.length top <= 100)%nat /\
                (List.length top <= List.length (rows db))%nat.
Proof.
  assert (Hfloor : forall k, sql_bigint (leaderboard_limit limit) = Some k ->
                             k <= 100).
  { intros k Hk.
    destruct (leaderboard_limit_range limit) as (q & E & _ & H100).
    rewrite E in Hk. unfold sql_bigint in Hk.
    destruct (_ && _); [ | discriminate]. injection Hk as <-.
    apply Qfloor_resp_le in H100.
    change 100%Q with (inject_Z 100) in H100. rewrite Qfloor_Z in H100.
    exact H100. }
  assert (Hlen : forall k leb,
            k <= 100 ->
            (List.length (map entry_of
                            (firstn (Z.to_nat k) (order_by leb (rows db))))
             <= 100)%nat /\
            (List.length (map entry_of
                            (firstn (Z.to_nat k) (order_by leb (rows db))))
             <= List.length (rows db))%nat).
  { intros k leb Hk. rewrite length_map. split.
    - etransitivity; [apply firstn_le_length | lia].
    - rewrite length_firstn, order_by_length. lia. }
  destruct v; cbn [leaderboard_of].
  - unfold Variant1.leaderboard, Variant1.topN. cbv zeta.
    rewrite run_bind, run_await. cbn [perform]. unfold select_top.
    destruct (sql_bigint (leaderboard_limit limit)) as [k | ] eqn:Hk;
      [ | split; [reflexivity | discriminate]].
    destruct (k <? 0); [split; [reflexivity | discriminate] | ].
    cbn [run fst snd]. split; [reflexivity | ].
    intros r E. injection E as <-. split; [reflexivity | ].
    eexists. split; [reflexivity | ]. apply Hlen, Hfloor. reflexivity.
  - unfold Variant2.leaderboard. cbv zeta.
    rewrite run_bind, run_await. cbn [perform]. unfold select_top2.
    destruct (sql_bigint (leaderboard_limit limit)) as [k | ] eqn:Hk;
      [ | split; [reflexivity | discriminate]].
    destruct (k <? 0); [split; [reflexivity | discriminate] | ].
    cbn [run fst snd]. split; [reflexivity | ].
    intros r E. injection E as <-. split; [reflexivity | ].
    eexists. split; [reflexivity | ]. apply Hlen, Hfloor. reflexivity.
Qed.

End LeaderboardMore.

(** ** The rate limiter's key *)

Lemma append_inj_l (p s t : string) : (p ++ s = p ++ t)%string -> s = t.
Proof.
  induction p as [ | c p IH]; simpl; intros H; [exact H | ].
  injection H as H. apply IH, H.
Qed.

(** X19.  On [/submitScore] the limiter keys a request by its address
    string, upper-cased, and by nothing else: two requests share a
    bucket exactly when their addresses agree once upper-cased, whatever
    their IP addresses.  A request without an address string is keyed by
    IP, and such a key never coincides with an address key. *)
Theorem limiter_key_by_address (s1 s2 : string) (ip1 ip2 : option string) :
  (keyGenerator "/submitScore" (Some (JStr s1)) ip1
   = keyGenerator "/submitScore" (Some (JStr s2)) ip2
   <-> toUpperCase s1 = toUpperCase s2)
  /\
  (forall path body,
     (forall s, body <> Some (JStr s)) ->
     keyGenerator path body ip2
     = ("ip:" ++ match ip2 with Some s => s | None => "undefined" end)%string
     /\ keyGenerator path body ip2
        <> keyGenerator "/submitScore" (Some (JStr s1)) ip1).
Proof.
  split.
  - cbn [keyGenerator]. change (String.eqb "/submitScore" "/submitScore")
      with true. cbv iota. split.
    + apply (append_inj_l "addr:").
    + intros ->. reflexivity.
  - intros path body Hbody.
    assert (E : keyGenerator path body ip2
                = ("ip:" ++ match ip2 with
                            | Some s => s
                            | None => "undefined"
                            end)%string).
    { unfold keyGenerator. destruct body as [[ | | | | s | ] | ];
        try reflexivity. exfalso. apply (Hbody s). reflexivity. }
    split; [exact E | ]. rewrite E. cbn. discriminate.
Qed.

Section LimiterAndHandler.
Context {rt : JsRuntime}.

(** X20.  The limiter and the handler agree on the address when the
    request path is exactly [/submitScore]: when a submission whose
    address is a string is accepted, the row added to the table carries
    an address, and the request's bucket is named "addr:" followed by
    that address.  Under any other spelling of the path that the router
    still hands to the handler ([/SUBMITSCORE], [/submitScore/]) the
    bucket is the one of the IP address. *)
Theorem limiter_key_is_stored_address v w db req s db' r path :
  run w db (submitScore_of v req) = (db', Ok r) ->
  status r = 200 ->
  body_address req = JStr s ->
  exists row,
    db' = store_after v
            (mkStore (row :: rows db) (next_id db + 1) (score_check db)
                     (row :: inserted db)) /\
    inserted db' = row :: inserted db /\
    keyGenerator path (Some (plain (body_address req))) (req_ip req)
    = (if String.eqb path "/submitScore"
       then "addr:" ++ address row
       else "ip:" ++ match req_ip req with
                     | Some i => i
                     | None => "undefined"
                     end)%string.
Proof.
  intros Hrun H200 Hs.
  destruct (accepted_store v w db req db' r Hrun H200)
    as (row & hh & paidz & z & _ & _ & _ & Hrow & ->).
  exists row. rewrite inserted_store_after.
  split; [reflexivity | ]. split; [reflexivity | ].
  subst row. rewrite Hs. reflexivity.
Qed.

End LimiterAndHandler.

(** ** The CORS allow list *)

Lemma trimStart_head (s : string) :
  trimStart s = "" \/
  exists c r, trimStart s = String c r /\ is_space c = false.
Proof.
  induction s as [ | c s IH]; [left; reflexivity | ].
  cbn [trimStart]. destruct (is_space c) eqn:E; [exact IH | ].
  right. eauto.
Qed.

Lemma trimEnd_idempotent (s : string) : trimEnd (trimEnd s) = trimEnd s.
Proof.
  induction s as [ | c s IH]; [reflexivity | ].
  cbn [trimEnd]. destruct (trimEnd s) as [ | d kept] eqn:E.
  - destruct (is_space c) eqn:Ec; [reflexivity | ].
    cbn [trimEnd]. rewrite Ec. reflexivity.
  - cbn [trimEnd] in *. rewrite IH. reflexivity.
Qed.

Lemma trimEnd_head (c : ascii) (r : string) :
  is_space c = false -> exists r', trimEnd (String c r) = String c r'.
Proof.
  intros Hc. cbn [trimEnd]. destruct (trimEnd r); [rewrite Hc | ]; eauto.
Qed.

Lemma trim_idempotent (s : string) : trim (trim s) = trim s.
Proof.
  unfold trim. destruct (trimStart_head s) as [E | (c & r & E & Hc)];
    rewrite E; [reflexivity | ].
  destruct (trimEnd_head c r Hc) as (r' & E').
  rewrite E'. cbn [trimStart]. rewrite Hc, <- E'.
  apply trimEnd_idempotent.
Qed.

Lemma forallb_trimStart (p : ascii -> bool) (s : string) :
  forallb p (list_ascii_of_string s) = true ->
  forallb p (list_ascii_of_string (trimStart s)) = true.
Proof.
  induction s as [ | c s IH]; [auto | ].
  cbn [trimStart]. destruct (is_space c); [ | auto].
  cbn [list_ascii_of_string forallb]. intros H.
  apply andb_true_iff in H. apply IH, H.
Qed.

Lemma forallb_trimEnd (p : ascii -> bool) (s : string) :
  forallb p (list_ascii_of_string s) = true ->
  forallb p (list_ascii_of_string (trimEnd s)) = true.
Proof.
  induction s as [ | c s IH]; [auto | ].
  cbn [list_ascii_of_string forallb]. intros H.
  apply andb_true_iff in H. destruct H as [Hc Hs]. specialize (IH Hs).
  cbn [trimEnd]. destruct (trimEnd s) as [ | d kept].
  - destruct (is_space c); [reflexivity | ].
    cbn [list_ascii_of_string forallb]. rewrite Hc. reflexivity.
  - cbn [list_ascii_of_string forallb] in *. rewrite Hc. exact IH.
Qed.

Lemma split_comma_no_comma (s piece : string) :
  In piece (split_comma s) ->
  forallb (fun c => negb (Ascii.eqb c ",")) (list_ascii_of_string piece)
  = true.
Proof.
  revert piece. induction s as [ | c s IH]; intros piece.
  - intros [<- | []]. reflexivity.
  - cbn [split_comma]. destruct (Ascii.eqb c ",") eqn:Ec.
    + intros [<- | Hin]; [reflexivity | apply IH, Hin].
    + destruct (split_comma s) as [ | w ws].
      * intros [<- | []]. cbn. rewrite Ec. reflexivity.
      * intros [<- | Hin].
        -- cbn [list_ascii_of_string forallb]. rewrite Ec.
           apply IH. left. reflexivity.
        -- apply IH. right. exact Hin.
Qed.

Lemma split_comma_single (s : string) :
  forallb (fun c => negb (Ascii.eqb c ",")) (list_ascii_of_string s) = true ->
  split_comma s = [s].
Proof.
  induction s as [ | c s IH]; [reflexivity | ].
  cbn [list_ascii_of_string forallb]. intros H.
  apply andb_true_iff in H. destruct H as [Hc Hs].
  cbn [split_comma]. apply negb_true_iff in Hc. rewrite Hc, (IH Hs).
  reflexivity.
Qed.

Lemma split_comma_cons (s t : string) :
  forallb (fun c => negb (Ascii.eqb c ",")) (list_ascii_of_string s) = true ->
  split_comma (s ++ "," ++ t) = s :: split_comma t.
Proof.
  induction s as [ | c s IH]; [reflexivity | ].
  cbn [list_ascii_of_string forallb]. intros H.
  apply andb_true_iff in H. destruct H as [Hc Hs].
  cbn [append split_comma]. apply negb_true_iff in Hc.
  rewrite Hc. cbn [append] in IH. rewrite (IH Hs). reflexivity.
Qed.

Lemma split_join_comma (l : list string) :
  l <> [] ->
  Forall (fun s => forallb (fun c => negb (Ascii.eqb c ","))
                     (list_ascii_of_string s) = true) l ->
  split_comma (join_comma l) = l.
Proof.
  induction l as [ | s l IH]; [congruence | ].
  intros _ Hall. inversion Hall as [ | ? ? Hs Hl]; subst.
  destruct l as [ | s' l'].
  - apply split_comma_single, Hs.
  - change (join_comma (s :: s' :: l'))
      with (s ++ "," ++ join_comma (s' :: l'))%string.
    rewrite (split_comma_cons _ _ Hs), IH; [reflexivity | discriminate | ].
    exact Hl.
Qed.

(** X21.  Every entry of the allow list is a clean origin: it is not
    empty, has no white space at either end and holds no comma. *)
Theorem ALLOWED_entries_are_clean (env : option string) (o : string) :
  In o (ALLOWED env) -> clean_origin o.
Proof.
  unfold ALLOWED. intros Hin. apply filter_In in Hin.
  destruct Hin as [Hin Hne]. apply in_map_iff in Hin.
  destruct Hin as (piece & <- & Hpiece).
  refine (conj _ (conj _ _)).
  - intros E. rewrite E in Hne. discriminate.
  - apply trim_idempotent.
  - unfold trim. apply forallb_trimEnd, forallb_trimStart.
    eapply split_comma_no_comma, Hpiece.
Qed.

Lemma clean_origins_survive (l : list string) :
  Forall clean_origin l ->
  filter (fun s => negb (String.eqb s "")) (map trim l) = l.
Proof.
  induction 1 as [ | x l (Hne & Htrim & _) _ IH]; [reflexivity | ].
  cbn [map filter]. rewrite Htrim.
  destruct (String.eqb_spec x "") as [E | _]; [contradiction | ].
  cbn [negb]. f_equal. exact IH.
Qed.

Lemma clean_origins_have_no_comma (l : list string) :
  Forall clean_origin l ->
  Forall (fun s => forallb (fun c => negb (Ascii.eqb c ","))
                     (list_ascii_of_string s) = true) l.
Proof.
  intros Hall. eapply Forall_impl; [ | exact Hall].
  intros x (_ & _ & Hx). exact Hx.
Qed.

(** X22.  Writing clean origins with commas between them and reading
    the variable back gives the same list. *)
Theorem ALLOWED_of_join (l : list string) :
  Forall clean_origin l -> ALLOWED (Some (join_comma l)) = l.
Proof.
  intros Hall. unfold ALLOWED.
  destruct l as [ | s l']; [reflexivity | ].
  rewrite split_join_comma;
    [ | discriminate | apply clean_origins_have_no_comma, Hall].
  apply clean_origins_survive, Hall.
Qed.

(** X23.  The CORS decision.  With the variable unset every origin is
    allowed; a request without an [Origin] header is allowed whatever
    the list; and with a list of clean origins in the variable, a
    request that names its origin is allowed exactly when the origin is
    one of the list, letter for letter. *)
Theorem cors_decision (l : list string) (o : string) :
  (forall origin, origin_allowed (ALLOWED None) origin = true) /\
  (forall env, origin_allowed (ALLOWED env) None = true) /\
  (Forall clean_origin l -> l <> [] -> o <> "" ->
   (origin_allowed (ALLOWED (Some (join_comma l))) (Some o) = true
    <-> In o l)).
Proof.
  split; [ | split].
  - intros origin. reflexivity.
  - intros env. unfold origin_allowed.
    destruct (_ =? _)%nat; reflexivity.
  - intros Hall Hne Ho. unfold ALLOWED.
    rewrite split_join_comma;
      [ | exact Hne | apply clean_origins_have_no_comma, Hall].
    rewrite (clean_origins_survive l Hall).
    unfold origin_allowed.
    destruct l as [ | s l']; [congruence | ]. cbn [List.length Nat.eqb].
    destruct (String.eqb_spec o "") as [E | _]; [contradiction | ].
    rewrite existsb_exists. split.
    + intros (x & Hx & E). apply String.eqb_eq in E. congruence.
    + intros Hin. exists o. split; [exact Hin | apply String.eqb_refl].
Qed.

(** ** The further properties at concrete inputs *)

Lemma NoDup_by_nodup (l : list Z) : nodup Z.eq_dec l = l -> NoDup l.
Proof. intros <-. apply NoDup_nodup. Qed.

Lemma NoDup_strings_by_nodup (l : list string) :
  nodup string_dec l = l -> NoDup l.
Proof. intros <-. apply NoDup_nodup. Qed.

Section MoreScenarios.
#[local] Existing Instance demo_runtime.

Lemma clampScore_monotone_witness :
  exists za zb,
    clampScore (JNum (Fin (5 # 2))) = of_Z za /\
    clampScore (JNum (of_Z 7)) = of_Z zb /\ za <= zb.
Proof.
  apply (clampScore_monotone (JNum (Fin (5 # 2))) (JNum (of_Z 7))
           (5 # 2) (inject_Z 7)); try reflexivity.
  unfold Qle. cbn. lia.
Defined.

Lemma delete_not_top100_idempotent_witness :
  let db := fst (serve Variant2.submitScore ensureSchema_v2
                   (honest_submissions 101)) in
  delete_not_top100 (delete_not_top100 db) = delete_not_top100 db.
Proof.
  intros db. apply (delete_not_top100_idempotent db).
  apply NoDup_by_nodup. vm_compute. reflexivity.
Defined.

Lemma trimming_keeps_top_witness :
  let db := fst (serve Variant2.submitScore ensureSchema_v2
                   (honest_submissions 101)) in
  select_top (delete_not_top100 db) (of_Z 10) = select_top db (of_Z 10) /\
  select_top db (of_Z 10)
  = Ok (map entry_of (firstn (Z.to_nat 10) (order_by rank_leb (rows db)))).
Proof.
  intros db. apply (trimming_keeps_top db 10); [ | lia].
  apply NoDup_by_nodup. vm_compute. reflexivity.
Defined.

Lemma schema_kept_under_race_witness :
  let w := demo_world (JStr "none") in
  let db := fst (run w ensureSchema_v1
                   (Variant1.submitScore
                      (demo_request "T1" (JStr payer_lower) (JNum (of_Z 5))))) in
  let p := Variant1.submitScore
             (demo_request "T2" (JStr payer_lower) (JNum (of_Z 7))) in
  let q := Variant1.submitScore
             (demo_request "T2" (JStr payer_lower) (JNum (of_Z 9))) in
  schema_holds (fst (fst (race w race_schedule db p q))) /\
  schema_holds (fst (run w db p)).
Proof.
  intros w db p q. apply (schema_kept_under_race Response p q w race_schedule db).
  refine (conj _ (conj _ (conj _ _))).
  - apply NoDup_strings_by_nodup. vm_compute. reflexivity.
  - apply NoDup_by_nodup. vm_compute. reflexivity.
  - intros r Hr. vm_compute in Hr. destruct Hr as [<- | []].
    vm_compute. reflexivity.
  - intros _ r Hr. vm_compute in Hr. destruct Hr as [<- | []].
    vm_compute. split; discriminate.
Defined.

Lemma noprune_at_most_one_acceptance_witness :
  let w := demo_world (JStr "none") in
  let req1 := demo_request "T1" (JStr payer_lower) (JNum (of_Z 7)) in
  let req2 := demo_request "T1" (JStr payer_lower) (JNum (of_Z 9)) in
  let out := race w race_schedule ensureSchema_v2
                  (Variant2.submitScore req1) (Variant2.submitScore req2) in
  let r1 := match snd (fst out) with
            | Ret r => r
            | _ => send 0 ""
            end in
  let r2 := match snd out with
            | Ret r => r
            | _ => send 0 ""
            end in
  ~ (status r1 = 200 /\ status r2 = 200).
Proof.
  intros w req1 req2 out r1 r2.
  refine (proj1 (noprune_at_most_one_acceptance w race_schedule
                   ensureSchema_v2 req1 req2 (fst (fst out)) r1 r2 _ _ _)).
  - reflexivity.
  - constructor.
  - vm_compute. reflexivity.
Defined.

Lemma rejection_writes_nothing_witness :
  let w := demo_world (JStr "text") in
  let req := demo_request "T1" (JStr payer_lower) (JNum (of_Z 5)) in
  let db' := fst (run w ensureSchema_v1 (submitScore_of Autoprune req)) in
  rows db' = rows ensureSchema_v1 /\
  inserted db' = inserted ensureSchema_v1 /\
  score_check db' = score_check ensureSchema_v1.
Proof.
  intros w req db'.
  eapply (rejection_writes_nothing Autoprune w ensureSchema_v1 req db').
  - vm_compute. reflexivity.
  - discriminate.
Defined.

Lemma accepted_row_is_well_formed_witness :
  let w := demo_world (JStr "none") in
  let req := demo_request "T1" (JStr payer_lower) (JNum (of_Z 5)) in
  let db' := fst (run w ensureSchema_v2 (submitScore_of NoPrune req)) in
  exists row tx,
    db' = store_after NoPrune
            (mkStore (row :: rows ensureSchema_v2)
                     (next_id ensureSchema_v2 + 1)
                     (score_check ensureSchema_v2)
                     (row :: inserted ensureSchema_v2)) /\
    inserted db' = row :: inserted ensureSchema_v2 /\
    id row = next_id ensureSchema_v2 /\
    address row = toUpperCase (String_ (body_address req)) /\
    address_re (address row) = true /\
    0 <= score row <= 1000000000 /\
    getJson_outcome w (transaction_url (body_txHash req)) = Ok tx /\
    timestamptz_in (tx_created_at tx) = Some (paid_at row) /\
    created_at row = NOW w /\
    ip row = or_null (req_ip req) /\ ua row = or_null (user_agent req).
Proof.
  intros w req db'.
  eapply (accepted_row_is_well_formed NoPrune w ensureSchema_v2 req db').
  - vm_compute. reflexivity.
  - reflexivity.
Defined.

Lemma table_rows_stay_well_formed_witness :
  Forall (fun r => 0 <= score r <= 1000000000 /\
                   address_re (address r) = true)
         (rows (fst (serve (submitScore_of NoPrune) ensureSchema_v2
                       (honest_submissions 3)))).
Proof.
  apply (table_rows_stay_well_formed NoPrune (honest_submissions 3)
           ensureSchema_v2).
  constructor.
Defined.

Lemma noprune_replay_rejected_forever_witness :
  let w := demo_world (JStr "none") in
  let req := demo_request "T1" (JStr payer_lower) (JNum (of_Z 5)) in
  let db := fst (run w ensureSchema_v2 (Variant2.submitScore req)) in
  let db1 := fst (serve Variant2.submitScore db (honest_submissions 2)) in
  run w db1 (Variant2.submitScore req)
  = (db1, Ok (send 409 "tx already used"))
  /\ (forall db' r,
        run w db1 (Variant2.submitScore req) = (db', Ok r) ->
        status r <> 200 /\ db' = db1).
Proof.
  intros w req db db1.
  apply (noprune_replay_rejected_forever (honest_submissions 2) db
           (mkRow 1 payer 5 "T1" 1704067200000 1704067320000
                  (Some "203.0.113.7") (Some "curl/8.0")) w req).
  - vm_compute. left. reflexivity.
  - reflexivity.
Defined.

Lemma autoprune_leaderboard_lists_table_witness :
  let w := demo_world (JStr "none") in
  let db := fst (serve Variant1.submitScore ensureSchema_v1
                   (honest_submissions 3)) in
  run w db (Variant1.leaderboard (JStr "500")) =
  (db, Ok (mkResponse 200
             (Top (map entry_of (order_by rank_leb (rows db)))))).
Proof.
  intros w db.
  apply (autoprune_leaderboard_lists_table (honest_submissions 3) w
           (JStr "500") 100).
  - vm_compute. reflexivity.
  - reflexivity.
Defined.

Lemma ledger_failure_is_500_witness :
  let w := mkWorld (fun _ => Ok (mkHttp false 503 (Err (Error ""))))
                   1704067320000 1704067320000 in
  let req := demo_request "T1" (JStr payer_lower) (JNum (of_Z 5)) in
  run w ensureSchema_v1 (submitScore_of Autoprune req) =
  (ensureSchema_v1, Ok (send 500 "Horizon error 503")).
Proof.
  intros w req.
  refine (proj1 (ledger_failure_is_500 Autoprune w ensureSchema_v1 req
                   (mkHttp false 503 (Err (Error ""))) _ _) _).
  - unfold passes_request_checks. repeat split; vm_compute; reflexivity.
  - reflexivity.
  - reflexivity.
Defined.

Lemma address_case_is_ignored_witness :
  let w := demo_world (JStr "none") in
  let req := demo_request "T1" (JStr payer_lower) (JNum (of_Z 5)) in
  run w ensureSchema_v1 (submitScore_of Autoprune req) =
  run w ensureSchema_v1
      (submitScore_of Autoprune
         (mkRequest (body_txHash req) (JStr payer) (body_score req)
                    (req_ip req) (user_agent req))).
Proof.
  intros w req.
  apply (address_case_is_ignored Autoprune w ensureSchema_v1 req
           payer_lower payer); reflexivity.
Defined.

Lemma too_old_stays_too_old_witness :
  let l := ledger (tx_doc (JStr "none")) (ops_doc [kale_payment payer]) in
  let w := mkWorld l 1704069060000 1704069060000 in
  let w' := mkWorld l 1704070000000 1704070000000 in
  let req := demo_request "T1" (JStr payer_lower) (JNum (of_Z 5)) in
  run w ensureSchema_v1 (submitScore_of Autoprune req)
  = (ensureSchema_v1, Ok (send 400 "tx too old")) /\
  run w' ensureSchema_v1 (submitScore_of Autoprune req)
  = (ensureSchema_v1, Ok (send 400 "tx too old")).
Proof.
  intros l w w' req.
  apply (too_old_stays_too_old Autoprune w w' ensureSchema_v1 req
           (tx_doc (JStr "none"))).
  - unfold reaches_memo_check, passes_request_checks.
    repeat split; vm_compute; reflexivity.
  - reflexivity.
  - vm_compute. reflexivity.
  - reflexivity.
  - vm_compute. discriminate.
Defined.

Lemma top10_heads_the_leaderboard_witness :
  let w := demo_world (JStr "none") in
  let req := demo_request "T1" (JStr payer_lower) (JNum (of_Z 5)) in
  let out := run w ensureSchema_v1 (submitScore_of Autoprune req) in
  let r := match snd out with
           | Ok r => r
           | Err _ => send 0 ""
           end in
  exists top10 top,
    body r = OkTop10 top10 /\
    run w (fst out) (Variant1.leaderboard (JStr "100"))
    = (fst out, Ok (mkResponse 200 (Top top))) /\
    firstn 10 top = top10.
Proof.
  intros w req out r.
  apply (top10_heads_the_leaderboard w w ensureSchema_v1 req
           (fst out) r (JStr "100") 100 100).
  - vm_compute. reflexivity.
  - reflexivity.
  - vm_compute. reflexivity.
  - reflexivity.
  - lia.
Defined.

Lemma limiter_key_is_stored_address_witness :
  let w := demo_world (JStr "none") in
  let req := demo_request "T1" (JStr payer_lower) (JNum (of_Z 5)) in
  let db' := fst (run w ensureSchema_v1 (submitScore_of Autoprune req)) in
  exists row,
    db' = store_after Autoprune
            (mkStore (row :: rows ensureSchema_v1)
                     (next_id ensureSchema_v1 + 1)
                     (score_check ensureSchema_v1)
                     (row :: inserted ensureSchema_v1)) /\
    inserted db' = row :: inserted ensureSchema_v1 /\
    keyGenerator "/submitScore" (Some (plain (body_address req))) (req_ip req)
    = ("addr:" ++ address row)%string.
Proof.
  intros w req db'.
  eapply (limiter_key_is_stored_address Autoprune w ensureSchema_v1 req
            payer_lower db' _ "/submitScore").
  - vm_compute. reflexivity.
  - reflexivity.
  - reflexivity.
Defined.

Lemma ALLOWED_entries_are_clean_witness :
  clean_origin "https://a.example".
Proof.
  apply (ALLOWED_entries_are_clean
           (Some " https://a.example , ,https://b.example")).
  vm_compute. left. reflexivity.
Defined.

Lemma ALLOWED_of_join_witness :
  ALLOWED (Some (join_comma ["https://a.example"; "https://b.example"]))
  = ["https://a.example"; "https://b.example"].
Proof.
  apply (ALLOWED_of_join ["https://a.example"; "https://b.example"]).
  repeat constructor; try discriminate.
Defined.

End MoreScenarios.
